(** * Package signing pipeline of the build-system common library

    A shallow embedding of [common_library/signer/base_signer.py]
    ([BaseSigner._sign_build], [BaseSigner._download_package] and
    [BaseSigner._check_signature]) together with the constants of
    [common_library/constants.py], and the properties of the pipeline
    that the specification states.

    The collaborators of the signer (network download, verification and
    notarization, external signing commands, upload, task reporting) are
    the fields of an [env] record: each is a function of the current
    [world] (file system and history of interactions) and of its
    arguments.  The Python code is written in a small state-and-exception
    monad over [world]; local dictionaries of [_sign_build] are passed
    explicitly from stage to stage. *)

From Stdlib Require Import Ascii.
From stdpp Require Import gmap strings list fin_maps pretty.

#[local] Set Warnings "-clear-no-such-hyp".

Open Scope string_scope.
Open Scope list_scope.

(** ** constants.py *)

(** [DEFAULT_PARALLEL_FILE_UPLOAD_SIZE = 52428800]. *)
Definition DEFAULT_PARALLEL_FILE_UPLOAD_SIZE : N := 52428800.

(** [class SignStatusEnum(enum.IntEnum)]. *)
Inductive SignStatusEnum :=
| SUCCESS
| READ_ERROR
| NO_SIGNATURE
| WRONG_SIGNATURE.

Definition SignStatusEnum_value (s : SignStatusEnum) : Z :=
  match s with
  | SUCCESS => 1
  | READ_ERROR => 2
  | NO_SIGNATURE => 3
  | WRONG_SIGNATURE => 4
  end.

#[global] Instance SignStatusEnum_eq_dec : EqDecision SignStatusEnum.
Proof. solve_decision. Defined.

(** ** Strings and paths *)

Definition ascii_lower (c : ascii) : ascii :=
  let n := Ascii.nat_of_ascii c in
  if (65 <=? n)%nat && (n <=? 90)%nat then Ascii.ascii_of_nat (n + 32) else c.

(** [str.lower()] on ASCII text (key identifiers are hexadecimal). *)
Fixpoint lower (s : string) : string :=
  match s with
  | EmptyString => EmptyString
  | String c s' => String (ascii_lower c) (lower s')
  end.

Fixpoint starts_with (p s : string) : bool :=
  match p, s with
  | EmptyString, _ => true
  | String a p', String b s' => bool_decide (a = b) && starts_with p' s'
  | String _ _, EmptyString => false
  end.

(** [sub in s] on strings. *)
Fixpoint contains (sub s : string) : bool :=
  starts_with sub s ||
  match s with
  | EmptyString => false
  | String _ s' => contains sub s'
  end.

Fixpoint ends_with_slash (s : string) : bool :=
  match s with
  | EmptyString => false
  | String c EmptyString => bool_decide (c = "/"%char)
  | String _ s' => ends_with_slash s'
  end.

(** One step of [os.path.join]: an absolute component discards what
    precedes it, otherwise it is appended after a single separator. *)
Definition join2 (path b : string) : string :=
  if starts_with "/" b then b
  else if bool_decide (path = "") || ends_with_slash path then path +:+ b
  else path +:+ "/" +:+ b.

Definition os_path_join (a : string) (p : list string) : string :=
  foldl join2 a p.

(** [str(n)] for an integer identifier. *)
Definition str (n : Z) : string := pretty n.

(** [' '.join(l)]. *)
Fixpoint join_with (sep : string) (l : list string) : string :=
  match l with
  | [] => ""
  | [x] => x
  | x :: l' => x +:+ sep +:+ join_with sep l'
  end.

(** ** Python dictionaries that are iterated: insertion-ordered *)

Section dict.
Context {K V : Type} `{EqDecision K}.

Fixpoint dict_get (k : K) (d : list (K * V)) : option V :=
  match d with
  | [] => None
  | (k', v) :: d' => if decide (k = k') then Some v else dict_get k d'
  end.

(** [d[k] = v]: an existing key keeps its position. *)
Fixpoint dict_set (k : K) (v : V) (d : list (K * V)) : list (K * V) :=
  match d with
  | [] => [(k, v)]
  | (k', v') :: d' =>
      if decide (k = k') then (k, v) :: d' else (k', v') :: dict_set k v d'
  end.

Definition dict_keys (d : list (K * V)) : list K := d.*1.
Definition dict_values (d : list (K * V)) : list V := d.*2.
End dict.

(** ** Data model *)

(** A package descriptor of the task payload (a Python dict). *)
Record package := {
  pkg_id : Z;
  pkg_type : option string;          (* 'type' *)
  pkg_package_type : option string;  (* 'package_type' *)
  pkg_file_name : option string;     (* 'file_name' *)
  pkg_name : option string;          (* 'name' *)
  pkg_download_url : option string;  (* 'download_url' *)
  pkg_cas_hash : option string       (* 'cas_hash' *)
}.

(** [pkg.get('type', pkg.get('package_type', 'rpm'))]. *)
Definition package_type (pkg : package) : string :=
  match pkg_type pkg with
  | Some t => t
  | None => default "rpm" (pkg_package_type pkg)
  end.

(** [pkg.get('file_name', pkg.get('name'))]. *)
Definition package_file_name (pkg : package) : option string :=
  match pkg_file_name pkg with
  | Some f => Some f
  | None => pkg_name pkg
  end.

(** [task['packages']]: a list, or a dict from platform to list. *)
Inductive task_packages :=
| Flat (pkgs : list package)
| ByPlatform (groups : list (string * list package)).

Record sign_task := {
  task_id : Z;
  task_keyid : option string;        (* 'keyid' *)
  task_pgp_keyid : option string;    (* 'pgp_keyid' *)
  task_sign_files : bool;            (* task.get('sign_files', False) *)
  task_build_id : option Z;
  task_packages_ : task_packages
}.

(** An entry of [self.__key_ids]. *)
Record key_entry := {
  key_password : string;
  key_fingerprint : string;
  key_subkeys : list string
}.

(** [signed_package.pop('download_url')] on a copy of the descriptor. *)
Definition pop_download_url (pkg : package) : package :=
  {| pkg_id := pkg_id pkg; pkg_type := pkg_type pkg;
     pkg_package_type := pkg_package_type pkg;
     pkg_file_name := pkg_file_name pkg; pkg_name := pkg_name pkg;
     pkg_download_url := None; pkg_cas_hash := pkg_cas_hash pkg |}.

(** The per-package result object: a copy of the descriptor without its
    download URL, with the fingerprint and the fields filled in later. *)
Record signed_package := {
  sp_pkg : package;
  sp_fingerprint : string;
  sp_cas_hash : option string;
  sp_sha256 : option string;
  sp_href : option string
}.

Definition set_cas_hash (c : string) (p : signed_package) : signed_package :=
  {| sp_pkg := sp_pkg p; sp_fingerprint := sp_fingerprint p;
     sp_cas_hash := Some c; sp_sha256 := sp_sha256 p; sp_href := sp_href p |}.
Definition set_sha256 (s : string) (p : signed_package) : signed_package :=
  {| sp_pkg := sp_pkg p; sp_fingerprint := sp_fingerprint p;
     sp_cas_hash := sp_cas_hash p; sp_sha256 := Some s; sp_href := sp_href p |}.
Definition set_href (h : string) (p : signed_package) : signed_package :=
  {| sp_pkg := sp_pkg p; sp_fingerprint := sp_fingerprint p;
     sp_cas_hash := sp_cas_hash p; sp_sha256 := sp_sha256 p; sp_href := Some h |}.

Inductive exn :=
| SignError (msg : string)
| KeyError (key : option string)
| TypeError
| AttributeError
| FileNotFoundError (path : string)
| CollaboratorError (msg : string).

(** [response_payload]; the timing statistics are left out, and the
    formatted traceback is represented by the exception itself. *)
Record response_payload := {
  rp_build_id : option Z;
  rp_success : bool;
  rp_packages : option (list signed_package);
  rp_error_message : option exn
}.

(** What the later stages observe of a staged file: its digest, its
    size, and the signers of the OpenPGP message stored under each of the
    two signature tags of an RPM header ([None]: tag absent or empty). *)
Record file := {
  f_sha256 : string;
  f_size : N;
  f_siggpg : option (list string);
  f_sigpgp : option (list string)
}.

(** The tuple [(package_id, file_name, package_path, platform)]. *)
Record dl_info := {
  dl_id : Z;
  dl_file_name : option string;
  dl_path : string;
  dl_platform : option string
}.

#[global] Instance dl_info_eq_dec : EqDecision dl_info.
Proof. solve_decision. Defined.

Inductive event :=
| EvDownload (url dest : string) (res : option exn)
| EvVerify (path : string) (res : exn + option string)
| EvSignRpm (paths : list string) (keyid password : string)
            (sign_files : bool) (cert : option string) (res : option exn)
| EvSignDeb (path keyid password : string) (res : option exn)
| EvSignDsc (path keyid password : string) (res : option exn)
| EvNotarize (path meta : string) (res : exn + string)
| EvUpload (path : string) (task : Z) (platform : option string)
           (package_id : Z) (file_name : option string)
           (res : exn + option string)
| EvReport (task : Z) (payload : response_payload) (res : option exn).

Record world := {
  w_files : gmap string file;
  w_dirs : gset string;
  w_trace : list event
}.

Definition log_event (e : event) (w : world) : world :=
  {| w_files := w_files w; w_dirs := w_dirs w; w_trace := w_trace w ++ [e] |}.
Definition set_files (fs : gmap string file) (w : world) : world :=
  {| w_files := fs; w_dirs := w_dirs w; w_trace := w_trace w |}.
Definition add_dir (d : string) (w : world) : world :=
  {| w_files := w_files w; w_dirs := {[d]} ∪ w_dirs w; w_trace := w_trace w |}.

(** The collaborators, and the completion order chosen by each of the
    three thread pools. *)
Record env := {
  download_file : world → string → string → exn + file;
  verify_artifact : world → string → exn + option string;
  notarize_artifact : world → string → string → exn + string;
  sign_rpm_package :
    world → list string → string → string → bool → option string →
    exn + gmap string file;
  sign_deb_package : world → string → string → string → exn + gmap string file;
  sign_dsc_package : world → string → string → string → exn + gmap string file;
  upload_artifact :
    world → string → Z → option string → Z → option string →
    exn + option string;
  report_signed_build : world → Z → response_payload → option exn;
  download_order : list nat;
  check_order : list nat;
  upload_order : list nat
}.

(** [self._config] and the attributes of the signer. *)
Record signer := {
  working_dir : string;
  parallel_upload : bool;
  parallel_upload_file_size : N;
  key_ids : gmap string key_entry;
  notar_enabled : bool;
  files_sign_cert_path : option string
}.

(** ** The state-and-exception monad of the pipeline *)

Inductive result (A : Type) :=
| Ok (a : A)
| Raise (e : exn).
Arguments Ok {A} a.
Arguments Raise {A} e.

Definition M (A : Type) : Type := world → result A * world.

Definition ret {A} (a : A) : M A := λ w, (Ok a, w).
Definition raise {A} (e : exn) : M A := λ w, (Raise e, w).
Definition bind {A B} (m : M A) (f : A → M B) : M B :=
  λ w, match m w with
       | (Ok a, w') => f a w'
       | (Raise e, w') => (Raise e, w')
       end.

Notation "'let*' x ':=' m 'in' k" := (bind m (λ x, k))
  (at level 10, x pattern, m at level 100, k at level 200, only parsing).

(** [as_completed]: the completion order of the jobs of a pool is any
    permutation of their submission order; [picks] chooses it (each
    job is inserted at the chosen position among those after it). *)
Definition insert_at {A} (n : nat) (x : A) (l : list A) : list A :=
  take n l ++ x :: drop n l.

Fixpoint schedule {A} (picks : list nat) (l : list A) : list A :=
  match l with
  | [] => []
  | x :: l' => insert_at (hd 0%nat picks) x (schedule (tl picks) l')
  end.

(** ** File-system and collaborator calls *)

(** Modelled from the spec: [file_utils.safe_mkdir] is not part of the
    sources at hand; it creates the per-package directory tree. *)
Definition safe_mkdir (d : string) : M unit :=
  λ w, (Ok (), add_dir d w).

(** Modelled from the spec: [file_utils.hash_file] is not part of the
    sources at hand; it computes the content digest of a local file. *)
Definition hash_file (p : string) : M string :=
  λ w, match w_files w !! p with
       | Some f => (Ok (f_sha256 f), w)
       | None => (Raise (FileNotFoundError p), w)
       end.

(** [os.stat(p).st_size]. *)
Definition stat_size (p : string) : M N :=
  λ w, match w_files w !! p with
       | Some f => (Ok (f_size f), w)
       | None => (Raise (FileNotFoundError p), w)
       end.

(** [p] is [d] itself or lies below it. *)
Definition is_under (d p : string) : bool :=
  bool_decide (p = d) || starts_with (d +:+ "/") p.

(** [os.path.exists(d)]: something was created at or below [d]. *)
Definition path_exists (d : string) (w : world) : bool :=
  bool_decide (set_Exists (λ p, is_under d p) (w_dirs w ∪ dom (w_files w))).

(** [shutil.rmtree(d)]. *)
Definition rmtree (d : string) : M unit :=
  λ w, (Ok (),
        {| w_files := filter (λ kv, ¬ is_under d kv.1) (w_files w);
           w_dirs := filter (λ p, ¬ is_under d p) (w_dirs w);
           w_trace := w_trace w |}).

Fixpoint strip_prefix (p s : string) : option string :=
  match p, s with
  | EmptyString, _ => Some s
  | String a p', String b s' =>
      if decide (a = b) then strip_prefix p' s' else None
  | String _ _, EmptyString => None
  end.

Fixpoint ends_with (suf s : string) : bool :=
  bool_decide (s = suf) ||
  match s with
  | EmptyString => false
  | String _ s' => ends_with suf s'
  end.

Fixpoint no_hidden (at_start : bool) (s : string) : bool :=
  match s with
  | EmptyString => true
  | String c s' =>
      if at_start && bool_decide (c = "."%char) then false
      else no_hidden (bool_decide (c = "/"%char)) s'
  end.

(** [p] matches [os.path.join(dir, '**/*' + ext)] with [recursive=True]:
    it lies below [dir], no component below [dir] is hidden, and its
    last component ends with [ext]. *)
Definition glob_match (dir ext p : string) : bool :=
  match strip_prefix (dir +:+ "/") p with
  | Some rest => no_hidden true rest && ends_with ext rest
  | None => false
  end.

(** [glob.glob]; Python leaves the order of the matches to the file
    system, here it is the enumeration order of the map. *)
Definition glob (dir ext : string) (w : world) : list string :=
  filter (λ p, glob_match dir ext p) (map_to_list (w_files w)).*1.

Definition call_download (E : env) (url dest : string) : M unit :=
  λ w, match download_file E w url dest with
       | inl e => (Raise e, log_event (EvDownload url dest (Some e)) w)
       | inr f =>
           (Ok (), log_event (EvDownload url dest None)
                     (set_files (<[dest := f]> (w_files w)) w))
       end.

Definition call_verify (E : env) (path : string) : M (option string) :=
  λ w, let r := verify_artifact E w path in
       let w' := log_event (EvVerify path r) w in
       match r with
       | inl e => (Raise e, w')
       | inr v => (Ok v, w')
       end.

Definition call_notarize (E : env) (path meta : string) : M string :=
  λ w, let r := notarize_artifact E w path meta in
       let w' := log_event (EvNotarize path meta r) w in
       match r with
       | inl e => (Raise e, w')
       | inr c => (Ok c, w')
       end.

(** [sign_rpm_package(' '.join(packages_to_sign), ...)]: the batch is
    handed over as one string, which the callee splits again; the trace
    keeps the list. *)
Definition call_sign_rpm (E : env) (paths : list string)
    (keyid password : string) (sf : bool) (cert : option string) : M unit :=
  λ w, match sign_rpm_package E w paths keyid password sf cert with
       | inl e =>
           (Raise e, log_event (EvSignRpm paths keyid password sf cert (Some e)) w)
       | inr fs =>
           (Ok (), log_event (EvSignRpm paths keyid password sf cert None)
                     (set_files fs w))
       end.

Definition call_sign_deb (E : env) (path keyid password : string) : M unit :=
  λ w, match sign_deb_package E w path keyid password with
       | inl e => (Raise e, log_event (EvSignDeb path keyid password (Some e)) w)
       | inr fs =>
           (Ok (), log_event (EvSignDeb path keyid password None) (set_files fs w))
       end.

Definition call_sign_dsc (E : env) (path keyid password : string) : M unit :=
  λ w, match sign_dsc_package E w path keyid password with
       | inl e => (Raise e, log_event (EvSignDsc path keyid password (Some e)) w)
       | inr fs =>
           (Ok (), log_event (EvSignDsc path keyid password None) (set_files fs w))
       end.

Definition call_upload (E : env) (task : Z) (t : dl_info) :
    world → (exn + option string) * world :=
  λ w, let r := upload_artifact E w (dl_path t) task (dl_platform t)
                  (dl_id t) (dl_file_name t) in
       (r, log_event (EvUpload (dl_path t) task (dl_platform t) (dl_id t)
                        (dl_file_name t) r) w).

Arguments call_upload : simpl never.

Definition call_report (E : env) (task : Z) (p : response_payload) : M unit :=
  λ w, let r := report_signed_build E w task p in
       let w' := log_event (EvReport task p r) w in
       match r with
       | Some e => (Raise e, w')
       | None => (Ok (), w')
       end.

(** ** [BaseSigner._download_package] *)

(** The retry loop [for i in range(1, try_count + 1)], followed by
    [raise last_exc]. *)
Fixpoint download_attempts (E : env) (download_url package_path : string)
    (tries : nat) (last_exc : option exn) : M string :=
  match tries with
  | O =>
      match last_exc with
      | Some e => raise e
      | None => raise TypeError      (* [raise None] *)
      end
  | S tries' =>
      λ w, match call_download E download_url package_path w with
           | (Ok _, w') => (Ok package_path, w')
           | (Raise e, w') =>
               download_attempts E download_url package_path tries' (Some e) w'
           end
  end.

Definition _download_package (E : env) (download_dir : string)
    (pkg : package) (platform : option string) (try_count : nat) : M string :=
  let platform_dir := default "" platform in
  let package_dir :=
    os_path_join download_dir [platform_dir; str (pkg_id pkg)] in
  let* _ := safe_mkdir package_dir in
  match package_file_name pkg with
  | None => raise TypeError          (* [os.path.join(package_dir, None)] *)
  | Some package_name =>
      let package_path := os_path_join package_dir [package_name] in
      match pkg_download_url pkg with
      | None => raise (KeyError (Some "download_url"))
      | Some download_url =>
          download_attempts E download_url package_path try_count None
      end
  end.

(** ** [BaseSigner._check_signature] *)

(** The loop over [pgp_msg.signatures] of the inner function [check]. *)
Fixpoint check_signers (key_id_lower : string) (subkeys signers : list string)
    (sig : string) : SignStatusEnum * string :=
  match signers with
  | [] => (WRONG_SIGNATURE, sig)
  | signer :: rest =>
      let sig := lower signer in
      if decide (sig = key_id_lower) then (SUCCESS, "")
      else if bool_decide (subkeys ≠ []) && bool_decide (sig ∈ subkeys)
           then (SUCCESS, "")
      else check_signers key_id_lower subkeys rest sig
  end.

(** The inner function [check]; [pkg_path.exists()] is the presence of
    a regular file at the path. *)
Definition check (fs : gmap string file) (key_id_lower : string)
    (subkeys : list string) (pkg_path : string) : SignStatusEnum * string :=
  match fs !! pkg_path with
  | None => (READ_ERROR, "")
  | Some f =>
      let signature :=
        match f_siggpg f with
        | Some s => Some s
        | None => f_sigpgp f
        end in
      match signature with
      | None => (NO_SIGNATURE, "")
      | Some signers => check_signers key_id_lower subkeys signers ""
      end
  end.

Definition check_error (pkg_path : string) (r : SignStatusEnum * string) :
    list string :=
  match r.1 with
  | READ_ERROR => ["Cannot read file " +:+ pkg_path]
  | NO_SIGNATURE => ["Package " +:+ pkg_path +:+ " is not signed"]
  | WRONG_SIGNATURE =>
      ["Package " +:+ pkg_path +:+ " is signed with the wrong key: " +:+ r.2]
  | SUCCESS => []
  end.

Definition _check_signature (E : env) (S : signer) (files : list string)
    (key_id : string) : M (list string) :=
  let key_id_lower := lower key_id in
  match key_ids S !! key_id with
  | None => raise (KeyError (Some key_id))
  | Some k =>
      let subkeys := lower <$> key_subkeys k in
      λ w,
        let futures :=
          (λ file_, (file_, check (w_files w) key_id_lower subkeys file_))
            <$> files in
        (Ok (flat_map (λ fr, check_error fr.1 fr.2)
               (schedule (check_order E) futures)), w)
  end.

(** ** [BaseSigner._sign_build] *)

(** Python truthiness of an optional string. *)
Definition truthy (o : option string) : bool :=
  match o with
  | Some s => bool_decide (s ≠ "")
  | None => false
  end.

Definition lift {A} (r : result A) : M A := λ w, (r, w).

(** *** Fetching *)

(** The jobs submitted to the download pool, in submission order. *)
Definition download_jobs (tp : task_packages) : list (package * option string) :=
  match tp with
  | Flat pkgs => (λ pkg, (pkg, None)) <$> pkgs
  | ByPlatform groups =>
      flat_map (λ g, (λ pkg, (pkg, Some g.1)) <$> g.2) groups
  end.

(** The closure [download_package], without its write to
    [pkg_info_mapping] (done by [run_downloads]). *)
Definition download_package (E : env) (rpms_dir debs_dir : string)
    (pkg : package) (platform : option string) : M (package * dl_info) :=
  let package_type := package_type pkg in
  let download_dir :=
    if bool_decide (package_type = "deb") || bool_decide (package_type = "dsc")
    then debs_dir else rpms_dir in
  let* pkg_path := _download_package E download_dir pkg platform 3 in
  ret (pkg, {| dl_id := pkg_id pkg; dl_file_name := package_file_name pkg;
               dl_path := pkg_path; dl_platform := platform |}).

(** The download pool: every submitted job runs, whatever the others
    do; jobs are taken here one at a time, in completion order. *)
Fixpoint run_downloads (E : env) (rpms_dir debs_dir : string)
    (jobs : list (package * option string))
    (pkg_info_mapping : list (string * package)) :
    world → (list (result (package * dl_info)) * list (string * package)) * world :=
  match jobs with
  | [] => λ w, (([], pkg_info_mapping), w)
  | (pkg, platform) :: jobs' =>
      λ w, match download_package E rpms_dir debs_dir pkg platform w with
           | (Ok r, w') =>
               let '((rs, pim), w'') :=
                 run_downloads E rpms_dir debs_dir jobs'
                   (dict_set (dl_path r.2) pkg pkg_info_mapping) w' in
               ((Ok r :: rs, pim), w'')
           | (Raise e, w') =>
               let '((rs, pim), w'') :=
                 run_downloads E rpms_dir debs_dir jobs' pkg_info_mapping w' in
               ((Raise e :: rs, pim), w'')
           end
  end.

Definition make_signed_package (pkg : package) (fingerprint : string) :
    signed_package :=
  {| sp_pkg := pop_download_url pkg; sp_fingerprint := fingerprint;
     sp_cas_hash := pkg_cas_hash pkg; sp_sha256 := None; sp_href := None |}.

(** The loop [for future in as_completed(futures)] of the download
    stage: [future.result()] re-raises the error of a failed job. *)
Fixpoint collect_downloads (fingerprint : string)
    (rs : list (result (package * dl_info)))
    (packages : list (Z * signed_package)) (downloaded : list dl_info) :
    result (list (Z * signed_package) * list dl_info) :=
  match rs with
  | [] => Ok (packages, downloaded)
  | Raise e :: _ => Raise e
  | Ok (package, downloaded_info) :: rs' =>
      collect_downloads fingerprint rs'
        (dict_set (pkg_id package) (make_signed_package package fingerprint)
           packages)
        (downloaded ++ [downloaded_info])
  end.

Definition fetch_stage (E : env) (task : sign_task) (fingerprint : string)
    (rpms_dir debs_dir : string) :
    M (list (string * package) * list (Z * signed_package) * list dl_info) :=
  λ w,
    let jobs := schedule (download_order E) (download_jobs (task_packages_ task)) in
    let '((rs, pim), w') := run_downloads E rpms_dir debs_dir jobs [] w in
    match collect_downloads fingerprint rs [] [] with
    | Ok (packages, downloaded) => (Ok (pim, packages, downloaded), w')
    | Raise e => (Raise e, w')
    end.

(** *** Verifying *)

Fixpoint verify_loop (E : env) (S : signer) (items : list (string * package))
    (pkg_verification_mapping : list (string * string)) :
    M (list (string * string)) :=
  match items with
  | [] => ret pkg_verification_mapping
  | (pkg_path, pkg_info) :: items' =>
      if notar_enabled S && truthy (pkg_cas_hash pkg_info) then
        let* verification := call_verify E pkg_path in
        match verification with
        | Some v =>
            if bool_decide (v ≠ "") then
              verify_loop E S items' (dict_set pkg_path v pkg_verification_mapping)
            else raise (SignError ("Package " +:+ pkg_path +:+ " cannot be verified"))
        | None =>
            raise (SignError ("Package " +:+ pkg_path +:+ " cannot be verified"))
        end
      else verify_loop E S items' pkg_verification_mapping
  end.

(** *** Signing *)

Fixpoint sign_rpm_loop (E : env) (keyid password : string) (sf : bool)
    (cert : option string) (globbed packages_to_sign : list string) :
    M (list string) :=
  match globbed with
  | [] => ret packages_to_sign
  | package :: globbed' =>
      let packages_to_sign := packages_to_sign ++ [package] in
      if (length packages_to_sign `mod` 50 =? 0)%nat then
        let* _ := call_sign_rpm E packages_to_sign keyid password sf cert in
        sign_rpm_loop E keyid password sf cert globbed' []
      else sign_rpm_loop E keyid password sf cert globbed' packages_to_sign
  end.

Definition sign_rpms (E : env) (keyid password : string) (sf : bool)
    (cert : option string) (globbed : list string) : M unit :=
  let* packages_to_sign :=
    sign_rpm_loop E keyid password sf cert globbed [] in
  match packages_to_sign with
  | [] => ret ()
  | _ => call_sign_rpm E packages_to_sign keyid password sf cert
  end.

Fixpoint sign_each (sign : string → M unit) (paths : list string) : M unit :=
  match paths with
  | [] => ret ()
  | package_path :: paths' =>
      let* _ := sign package_path in sign_each sign paths'
  end.

Definition sign_stage (E : env) (S : signer) (task : sign_task)
    (pgp_keyid pgp_key_password rpms_dir debs_dir : string) : M unit :=
  let* _ := (λ w, sign_rpms E pgp_keyid pgp_key_password (task_sign_files task)
                    (files_sign_cert_path S) (glob rpms_dir ".rpm" w) w) in
  let* _ := (λ w, sign_each (λ p, call_sign_deb E p pgp_keyid pgp_key_password)
                    (glob debs_dir ".deb" w) w) in
  λ w, sign_each (λ p, call_sign_dsc E p pgp_keyid pgp_key_password)
         (glob debs_dir ".dsc" w) w.

(** *** Planning the uploads *)

Record plan := {
  files_to_upload : gset string;
  parallel_upload_files : list (string * dl_info);
  sequential_upload_files : list (string * dl_info);
  files_to_check : list string
}.

Definition empty_plan : plan :=
  {| files_to_upload := ∅; parallel_upload_files := [];
     sequential_upload_files := []; files_to_check := [] |}.

(** [packages[package_id][field] = value]. *)
Definition update_package (package_id : Z) (f : signed_package → signed_package)
    (packages : list (Z * signed_package)) : M (list (Z * signed_package)) :=
  match dict_get package_id packages with
  | Some p => ret (dict_set package_id (f p) packages)
  | None => raise (KeyError (Some (str package_id)))
  end.

(** The body of [if sha256 not in files_to_upload:]. *)
Definition plan_first_seen (S : signer) (t : dl_info) (sha256 : string)
    (P : plan) : M plan :=
  let* to_parallel :=
    (if parallel_upload S then
       let* st_size := stat_size (dl_path t) in
       ret (bool_decide (st_size ≤ parallel_upload_file_size S)%N)
     else ret false) in
  ret {| files_to_upload := {[sha256]} ∪ files_to_upload P;
         parallel_upload_files :=
           if to_parallel then dict_set sha256 t (parallel_upload_files P)
           else parallel_upload_files P;
         sequential_upload_files :=
           if to_parallel then sequential_upload_files P
           else dict_set sha256 t (sequential_upload_files P);
         files_to_check :=
           if contains ".rpm" (dl_path t) then files_to_check P ++ [dl_path t]
           else files_to_check P |}.

(** One iteration of the loop over [downloaded]. *)
Definition plan_step (E : env) (S : signer)
    (pkg_verification_mapping : list (string * string)) (t : dl_info)
    (st : plan * list (Z * signed_package)) :
    M (plan * list (Z * signed_package)) :=
  let '(P, packages) := st in
  let old_meta := dict_get (dl_path t) pkg_verification_mapping in
  let* packages :=
    (match old_meta with
     | Some meta =>
         if notar_enabled S then
           let* cas_hash := call_notarize E (dl_path t) meta in
           update_package (dl_id t) (set_cas_hash cas_hash) packages
         else ret packages
     | None => ret packages
     end) in
  let* sha256 := hash_file (dl_path t) in
  let* P :=
    (if bool_decide (sha256 ∉ files_to_upload P)
     then plan_first_seen S t sha256 P else ret P) in
  let* packages := update_package (dl_id t) (set_sha256 sha256) packages in
  ret (P, packages).

Fixpoint plan_loop (E : env) (S : signer)
    (pkg_verification_mapping : list (string * string))
    (downloaded : list dl_info) (st : plan * list (Z * signed_package)) :
    M (plan * list (Z * signed_package)) :=
  match downloaded with
  | [] => ret st
  | t :: downloaded' =>
      let* st := plan_step E S pkg_verification_mapping t st in
      plan_loop E S pkg_verification_mapping downloaded' st
  end.

(** *** Auditing the signatures *)

Definition audit_stage (E : env) (S : signer) (P : plan) (pgp_keyid : string) :
    M unit :=
  let* sign_errors := _check_signature E S (files_to_check P) pgp_keyid in
  match sign_errors with
  | [] => ret ()
  | _ =>
      raise (SignError ("Errors during checking packages signatures: " +:+
                        String "010" (join_with (String "010" "") sign_errors)))
  end.

(** *** Uploading *)

(** The upload pool: every submitted upload runs. *)
Fixpoint run_uploads (E : env) (task : Z) (ts : list dl_info) :
    world → list (dl_info * (exn + option string)) * world :=
  match ts with
  | [] => λ w, ([], w)
  | t :: ts' =>
      λ w, let '(r, w') := call_upload E task t w in
           let '(rs, w'') := run_uploads E task ts' w' in
           ((t, r) :: rs, w'')
  end.

(** The loop [for future in as_completed(futures)] of the upload
    stage; a result without [href] attribute is [inr None]. *)
Fixpoint collect_uploads (rs : list (dl_info * (exn + option string)))
    (packages : list (Z * signed_package))
    (packages_hrefs : gmap (option string) string) :
    result (list (Z * signed_package) * gmap (option string) string) :=
  match rs with
  | [] => Ok (packages, packages_hrefs)
  | (t, inl e) :: _ => Raise e
  | (t, inr result) :: rs' =>
      match dict_get (dl_id t) packages with
      | None => Raise (KeyError (Some (str (dl_id t))))
      | Some p =>
          let package_name := pkg_name (sp_pkg p) in
          match result with
          | None => Raise AttributeError
          | Some href =>
              collect_uploads rs'
                (dict_set (dl_id t) (set_href href p) packages)
                (<[package_name := href]> packages_hrefs)
          end
      end
  end.

Definition upload_parallel (E : env) (task : Z) (P : plan)
    (packages : list (Z * signed_package)) :
    M (list (Z * signed_package) * gmap (option string) string) :=
  λ w,
    let '(rs, w') :=
      run_uploads E task
        (schedule (upload_order E) (dict_values (parallel_upload_files P))) w in
    (collect_uploads rs packages ∅, w').

Fixpoint upload_sequential (E : env) (task : Z) (ts : list dl_info)
    (packages : list (Z * signed_package))
    (packages_hrefs : gmap (option string) string) :
    M (list (Z * signed_package) * gmap (option string) string) :=
  match ts with
  | [] => ret (packages, packages_hrefs)
  | t :: ts' =>
      λ w, match call_upload E task t w with
           | (inl e, w') => (Raise e, w')
           | (inr None, w') =>
               upload_sequential E task ts' packages packages_hrefs w'
           | (inr (Some href), w') =>
               match dict_get (dl_id t) packages with
               | None => (Raise (KeyError (Some (str (dl_id t)))), w')
               | Some p =>
                   upload_sequential E task ts'
                     (dict_set (dl_id t) (set_href href p) packages)
                     (<[dl_file_name t := href]> packages_hrefs) w'
               end
           end
  end.

(** [# Fill href for packages of the same architecture]. *)
Fixpoint fill_hrefs (packages_hrefs : gmap (option string) string)
    (packages : list (Z * signed_package)) : result (list (Z * signed_package)) :=
  match packages with
  | [] => Ok []
  | (id_, package) :: packages' =>
      let filled :=
        if truthy (sp_href package) then Ok package
        else match packages_hrefs !! pkg_name (sp_pkg package) with
             | Some href => Ok (set_href href package)
             | None => Raise (KeyError (pkg_name (sp_pkg package)))
             end in
      match filled with
      | Raise e => Raise e
      | Ok package' =>
          match fill_hrefs packages_hrefs packages' with
          | Raise e => Raise e
          | Ok rest => Ok ((id_, package') :: rest)
          end
      end
  end.

Definition upload_stage (E : env) (S : signer) (task : Z) (P : plan)
    (packages : list (Z * signed_package)) : M (list (Z * signed_package)) :=
  let* (packages, packages_hrefs) := upload_parallel E task P packages in
  let* (packages, packages_hrefs) :=
    upload_sequential E task (dict_values (sequential_upload_files P))
      packages packages_hrefs in
  if parallel_upload S then lift (fill_hrefs packages_hrefs packages)
  else ret packages.

(** *** The task run *)

(** The body of the [try] block; it returns [list(packages.values())]. *)
Definition pipeline (E : env) (S : signer) (task : sign_task)
    (pgp_keyid : string) (key : key_entry) (rpms_dir debs_dir : string) :
    M (list signed_package) :=
  let* (pkg_info_mapping, packages, downloaded) :=
    fetch_stage E task (key_fingerprint key) rpms_dir debs_dir in
  let* pkg_verification_mapping := verify_loop E S pkg_info_mapping [] in
  let* _ := sign_stage E S task pgp_keyid (key_password key) rpms_dir debs_dir in
  let* (P, packages) :=
    plan_loop E S pkg_verification_mapping downloaded (empty_plan, packages) in
  let* _ := audit_stage E S P pgp_keyid in
  let* packages := upload_stage E S (task_id task) P packages in
  ret (dict_values packages).

(** [task.get('keyid', task.get('pgp_keyid'))]. *)
Definition task_pgp_key (task : sign_task) : option string :=
  match task_keyid task with
  | Some k => Some k
  | None => task_pgp_keyid task
  end.

Definition task_dir_of (S : signer) (task : sign_task) : string :=
  os_path_join (working_dir S) [str (task_id task)].

Definition final_payload (task : sign_task) (r : result (list signed_package)) :
    response_payload :=
  match r with
  | Ok pkgs =>
      {| rp_build_id := task_build_id task; rp_success := true;
         rp_packages := Some pkgs; rp_error_message := None |}
  | Raise e =>
      {| rp_build_id := task_build_id task; rp_success := false;
         rp_packages := None; rp_error_message := Some e |}
  end.

(** How a call of [_sign_build] ends: it returns, or an exception
    leaves it. *)
Inductive outcome :=
| Returned
| Escaped (e : exn).

(** The [finally] block. *)
Definition finally_block (E : env) (task : sign_task) (task_dir : string)
    (response_payload : response_payload) : world → outcome * world :=
  λ w, match call_report E (task_id task) response_payload w with
       | (Raise e, w') => (Escaped e, w')
       | (Ok _, w') =>
           if path_exists task_dir w' then (Returned, (rmtree task_dir w').2)
           else (Returned, w')
       end.

Definition _sign_build (E : env) (S : signer) (task : sign_task) :
    world → outcome * world :=
  λ w,
    match task_pgp_key task with
    | None => (Escaped (SignError "No pgp keyid"), w)
    | Some pgp_keyid =>
        if bool_decide (pgp_keyid = "")
        then (Escaped (SignError "No pgp keyid"), w)
        else
          match key_ids S !! pgp_keyid with
          | None => (Escaped (KeyError (Some pgp_keyid)), w)
          | Some key =>
              let task_dir := task_dir_of S task in
              let rpms_dir := os_path_join task_dir ["rpms"] in
              let debs_dir := os_path_join task_dir ["debs"] in
              let '(r, w') :=
                pipeline E S task pgp_keyid key rpms_dir debs_dir w in
              finally_block E task task_dir (final_payload task r) w'
          end
    end.

(** ** Vocabulary of the statements *)




(** The paths handed to the external RPM signer by an invocation. *)
Definition sign_rpm_batch (ev : event) : option (list string) :=
  match ev with
  | EvSignRpm paths _ _ _ _ _ => Some paths
  | _ => None
  end.

(** The batches of the RPM signing invocations of a trace, in order. *)
Definition rpm_batches (t : list event) : list (list string) :=
  omap sign_rpm_batch t.

(** The digest of the staged file of a downloaded artifact. *)
Definition sha_of (fs : gmap string file) (t : dl_info) : option string :=
  f_sha256 <$> fs !! dl_path t.

(** [t] is, in the order [l] of processing, the first artifact whose
    content has digest [h]. *)
Definition first_occurrence (fs : gmap string file) (l : list dl_info)
    (t : dl_info) (h : string) : Prop :=
  ∃ l1 l2, l = l1 ++ t :: l2 ∧ sha_of fs t = Some h ∧
           Forall (λ t', sha_of fs t' ≠ Some h) l1.

(** The first artifact of each distinct digest not in [seen], in the
    order of processing, with its digest. *)
Fixpoint first_seen (fs : gmap string file) (seen : gset string)
    (l : list dl_info) : list (string * dl_info) :=
  match l with
  | [] => []
  | t :: l' =>
      match sha_of fs t with
      | Some h =>
          if decide (h ∈ seen) then first_seen fs seen l'
          else (h, t) :: first_seen fs ({[h]} ∪ seen) l'
      | None => first_seen fs seen l'
      end
  end.

(** The parallel-upload feature is enabled and the staged file of [t]
    is not larger than the configured threshold. *)
Definition eligible (S : signer) (fs : gmap string file) (t : dl_info) : bool :=
  parallel_upload S &&
  match fs !! dl_path t with
  | Some f => bool_decide (f_size f ≤ parallel_upload_file_size S)%N
  | None => false
  end.

(** The plan after the first occurrence [t] of the digest [h]. *)
Definition plan_add (S : signer) (fs : gmap string file) (t : dl_info)
    (h : string) (P : plan) : plan :=
  {| files_to_upload := {[h]} ∪ files_to_upload P;
     parallel_upload_files :=
       if eligible S fs t then dict_set h t (parallel_upload_files P)
       else parallel_upload_files P;
     sequential_upload_files :=
       if eligible S fs t then sequential_upload_files P
       else dict_set h t (sequential_upload_files P);
     files_to_check :=
       if contains ".rpm" (dl_path t) then files_to_check P ++ [dl_path t]
       else files_to_check P |}.

(** The plan computed by the planning loop when every file is there. *)
Definition plan_pure (S : signer) (fs : gmap string file) (l : list dl_info)
    (P : plan) : plan :=
  foldl (λ P t, match sha_of fs t with
                | Some h =>
                    if decide (h ∈ files_to_upload P) then P
                    else plan_add S fs t h P
                | None => P
                end) P l.

(** What one iteration of the planning loop does to [packages]: the
    entry of the artifact records the digest, nothing else changes but
    the notarization hash of that entry. *)
Definition packages_step (t : dl_info) (h : string)
    (pk pk' : list (Z * signed_package)) : Prop :=
  dict_keys pk' = dict_keys pk ∧
  (∀ id, id ≠ dl_id t → dict_get id pk' = dict_get id pk) ∧
  ∃ p p', dict_get (dl_id t) pk = Some p ∧ dict_get (dl_id t) pk' = Some p' ∧
          sp_pkg p' = sp_pkg p ∧ sp_href p' = sp_href p ∧
          sp_sha256 p' = Some h.

(** Only digests already recorded as seen are queued. *)
Definition plan_wf (P : plan) : Prop :=
  (∀ h, h ∈ dict_keys (parallel_upload_files P) → h ∈ files_to_upload P) ∧
  (∀ h, h ∈ dict_keys (sequential_upload_files P) → h ∈ files_to_upload P).

(** Kinds of interactions. *)
Definition is_download (ev : event) : Prop :=
  match ev with EvDownload _ _ _ => True | _ => False end.
Definition is_verify (ev : event) : Prop :=
  match ev with EvVerify _ _ => True | _ => False end.
Definition is_signing (ev : event) : Prop :=
  match ev with
  | EvSignRpm _ _ _ _ _ _ | EvSignDeb _ _ _ _ | EvSignDsc _ _ _ _ => True
  | _ => False
  end.
Definition is_notarize (ev : event) : Prop :=
  match ev with EvNotarize _ _ _ => True | _ => False end.
Definition is_upload (ev : event) : Prop :=
  match ev with EvUpload _ _ _ _ _ _ => True | _ => False end.
Definition is_report (ev : event) : Prop :=
  match ev with EvReport _ _ _ => True | _ => False end.

(** A call of the verification collaborator that raised or returned
    nothing. *)
Definition verification_failed (ev : event) : Prop :=
  match ev with
  | EvVerify _ (inl _) | EvVerify _ (inr None) => True
  | EvVerify _ (inr (Some v)) => v = ""
  | _ => False
  end.

(** An invocation of the external RPM signer, if [ev] is one, receives
    between one and fifty paths. *)
Definition batch_ok (ev : event) : Prop :=
  ∀ b, sign_rpm_batch ev = Some b → (1 ≤ length b ≤ 50)%nat.

(** Every run of [m] appends to the trace only events satisfying [Q]. *)
Definition emits {A} (Q : event → Prop) (m : M A) : Prop :=
  ∀ w, ∃ t, w_trace (m w).2 = w_trace w ++ t ∧ Forall Q t.

(** The artifact an upload invocation was made for. *)
Definition uploaded_info (ev : event) : option dl_info :=
  match ev with
  | EvUpload path _ platform package_id file_name _ =>
      Some {| dl_id := package_id; dl_file_name := file_name;
              dl_path := path; dl_platform := platform |}
  | _ => None
  end.

(** The artifacts of the upload invocations of a trace, in order. *)
Definition uploads (t : list event) : list dl_info := omap uploaded_info t.


(** The payloads handed to the task-completion reporter, in order. *)
Definition reports (t : list event) : list response_payload :=
  omap (λ ev, match ev with EvReport _ p _ => Some p | _ => None end) t.

(** The names under which the location of a package is recorded after
    its upload, or looked up when it was not uploaded. *)
Definition names (p : signed_package) : list (option string) :=
  [pkg_name (sp_pkg p); package_file_name (sp_pkg p)].

Definition share_name (p q : signed_package) : Prop :=
  ∃ n, n ∈ names p ∧ n ∈ names q.

(** [pk'] has the entries of [pk], up to their locations. *)
Definition same_but_href (pk pk' : list (Z * signed_package)) : Prop :=
  dict_keys pk' = dict_keys pk ∧
  ∀ id p', dict_get id pk' = Some p' →
           ∃ p, dict_get id pk = Some p ∧ sp_pkg p' = sp_pkg p ∧
                sp_sha256 p' = sp_sha256 p.

(** The state of the upload stage after the uploads [ups] (artifact and
    returned location) have been processed, starting from the
    [packages] dictionary [pk1]: a location in an entry is the one
    returned for that package, a location recorded under a name was
    returned for a package that has this name. *)
Definition upload_inv (pk1 pk : list (Z * signed_package))
    (hrefs : gmap (option string) string) (ups : list (dl_info * string)) :
    Prop :=
  same_but_href pk1 pk ∧
  (∀ id p h, dict_get id pk = Some p → sp_href p = Some h →
             ∃ a, (a, h) ∈ ups ∧ dl_id a = id) ∧
  (∀ k h, hrefs !! k = Some h →
          ∃ a p, (a, h) ∈ ups ∧ dict_get (dl_id a) pk1 = Some p ∧ k ∈ names p).

(** ** Sample inputs *)

Definition empty_world : world :=
  {| w_files := ∅; w_dirs := ∅; w_trace := [] |}.

Definition sample_file (sha : string) (size : N) (signers : option (list string)) :
    file :=
  {| f_sha256 := sha; f_size := size; f_siggpg := signers; f_sigpgp := None |}.

(** Collaborators that answer from fixed tables: [remote] serves the
    downloads by URL, [verify] the verifications by path; the signers
    leave the files as they are, an upload returns a location made from
    the path, and the reporter answers [report]. *)
Definition sample_env (remote : string → exn + file)
    (verify : string → exn + option string) (report : option exn) : env :=
  {| download_file := λ _ url _, remote url;
     verify_artifact := λ _ path, verify path;
     notarize_artifact := λ _ _ _, inr "cas";
     sign_rpm_package := λ w _ _ _ _ _, inr (w_files w);
     sign_deb_package := λ w _ _ _, inr (w_files w);
     sign_dsc_package := λ w _ _ _, inr (w_files w);
     upload_artifact := λ _ path _ _ _ _, inr (Some ("href:" +:+ path));
     report_signed_build := λ _ _ _, report;
     download_order := []; check_order := []; upload_order := [] |}.

Definition sample_package (id : Z) (name url : string) (cas : option string) :
    package :=
  {| pkg_id := id; pkg_type := None; pkg_package_type := None;
     pkg_file_name := None; pkg_name := Some name;
     pkg_download_url := Some url; pkg_cas_hash := cas |}.

Definition sample_signer (parallel notar : bool) : signer :=
  {| working_dir := "/srv/sign"; parallel_upload := parallel;
     parallel_upload_file_size := DEFAULT_PARALLEL_FILE_UPLOAD_SIZE;
     key_ids := {[ "ABCD1234" := {| key_password := "secret";
                                    key_fingerprint := "FP";
                                    key_subkeys := ["EF567890"] |} ]};
     notar_enabled := notar; files_sign_cert_path := None |}.

Definition sample_task (keyid : option string) (pkgs : task_packages) : sign_task :=
  {| task_id := 7; task_keyid := keyid; task_pgp_keyid := None;
     task_sign_files := false; task_build_id := Some 1%Z;
     task_packages_ := pkgs |}.

(** Every URL serves the same signed RPM content. *)
Definition same_content (url : string) : exn + file :=
  inr (sample_file "d1" 10 (Some ["abcd1234"])).

Definition verify_ok (path : string) : exn + option string := inr (Some "meta").

(** Two descriptors, for two platforms, of one package. *)
Definition two_platforms : task_packages :=
  ByPlatform [("x86_64", [sample_package 1 "a.noarch.rpm" "u1" None]);
              ("aarch64", [sample_package 2 "a.noarch.rpm" "u2" None])].

(** The per-package entries of the last payload handed to the
    reporter. *)
Definition reported_packages (w : world) : list signed_package :=
  match last (reports (w_trace w)) with
  | Some payload => default [] (rp_packages payload)
  | None => []
  end.

(** A task run with parallel upload disabled, and the same with
    parallel upload enabled. *)
Definition run_without_parallel : outcome * world :=
  _sign_build (sample_env same_content verify_ok None)
    (sample_signer false false)
    (sample_task (Some "ABCD1234") two_platforms) empty_world.

Definition run_with_parallel : outcome * world :=
  _sign_build (sample_env same_content verify_ok None)
    (sample_signer true false)
    (sample_task (Some "ABCD1234") two_platforms) empty_world.

(** Three descriptors of one name: two copies of one content and,
    between them, a file of another content. *)
Definition other_content_at_u2 (url : string) : exn + file :=
  if bool_decide (url = "u2")
  then inr (sample_file "d2" 10 (Some ["abcd1234"]))
  else inr (sample_file "d1" 10 (Some ["abcd1234"])).

Definition one_name_two_contents : task_packages :=
  ByPlatform [("x86_64", [sample_package 1 "a.rpm" "u1" None]);
              ("ppc64le", [sample_package 2 "a.rpm" "u2" None]);
              ("aarch64", [sample_package 3 "a.rpm" "u3" None])].

Definition run_one_name_two_contents : outcome * world :=
  _sign_build (sample_env other_content_at_u2 verify_ok None)
    (sample_signer true false)
    (sample_task (Some "ABCD1234") one_name_two_contents) empty_world.

(** A task that names no key. *)
Definition run_without_key : outcome * world :=
  _sign_build (sample_env same_content verify_ok None)
    (sample_signer true false) (sample_task None two_platforms) empty_world.

(** A task run whose reporter raises. *)
Definition run_failing_report : outcome * world :=
  _sign_build
    (sample_env same_content verify_ok (Some (CollaboratorError "unreachable")))
    (sample_signer true false)
    (sample_task (Some "ABCD1234") two_platforms) empty_world.

(** A task run with verification enabled, whose verification
    collaborator returns nothing for the package of the second
    platform. *)
Definition verify_second_fails (path : string) : exn + option string :=
  if contains "aarch64" path then inr None else inr (Some "meta").

Definition with_cas_hash : task_packages :=
  ByPlatform [("x86_64", [sample_package 1 "a.noarch.rpm" "u1" (Some "c1")]);
              ("aarch64", [sample_package 2 "a.noarch.rpm" "u2" (Some "c2")])].

Definition run_failing_verification : outcome * world :=
  _sign_build (sample_env same_content verify_second_fails None)
    (sample_signer true true)
    (sample_task (Some "ABCD1234") with_cas_hash) empty_world.

(** A staging area after signing: two copies of one content, and a
    larger file of another content. *)
Definition staged_path (platform id name : string) : string :=
  os_path_join "/srv/sign/7/rpms" [platform; id; name].

Definition staged_world : world :=
  {| w_files :=
       {[ staged_path "x86_64" "1" "a.noarch.rpm" :=
            sample_file "d1" 10 (Some ["abcd1234"]);
          staged_path "aarch64" "2" "a.noarch.rpm" :=
            sample_file "d1" 10 (Some ["abcd1234"]);
          staged_path "x86_64" "3" "big.rpm" :=
            sample_file "d2" 60000000 (Some ["ef567890"]) ]};
     w_dirs := ∅; w_trace := [] |}.

Definition staged_info (id : Z) (platform name : string) : dl_info :=
  {| dl_id := id; dl_file_name := Some name;
     dl_path := staged_path platform (str id) name;
     dl_platform := Some platform |}.

Definition staged_downloaded : list dl_info :=
  [staged_info 1 "x86_64" "a.noarch.rpm";
   staged_info 2 "aarch64" "a.noarch.rpm";
   staged_info 3 "x86_64" "big.rpm"].

Definition staged_packages : list (Z * signed_package) :=
  [(1%Z, make_signed_package (sample_package 1 "a.noarch.rpm" "u1" None) "FP");
   (2%Z, make_signed_package (sample_package 2 "a.noarch.rpm" "u2" None) "FP");
   (3%Z, make_signed_package (sample_package 3 "big.rpm" "u3" None) "FP")].

Definition staged_plan_run :
    result (plan * list (Z * signed_package)) * world :=
  plan_loop (sample_env same_content verify_ok None) (sample_signer true false)
    [] staged_downloaded (empty_plan, staged_packages) staged_world.

Definition staged_plan : plan :=
  match staged_plan_run.1 with
  | Ok (P, _) => P
  | Raise _ => empty_plan
  end.

Definition staged_planned_packages : list (Z * signed_package) :=
  match staged_plan_run.1 with
  | Ok (_, packages) => packages
  | Raise _ => []
  end.



(** * Properties *)

(** ** Scheduling and dictionaries *)

Lemma insert_at_Permutation {A} n (x : A) l : insert_at n x l ≡ₚ x :: l.
Proof.
  unfold insert_at. rewrite <- Permutation_middle.
  by rewrite take_drop.
Qed.

Lemma schedule_Permutation {A} picks (l : list A) : schedule picks l ≡ₚ l.
Proof.
  revert picks. induction l as [|x l IH]; intros picks; simpl; [done|].
  rewrite insert_at_Permutation. by rewrite IH.
Qed.

Lemma schedule_nil_picks {A} (l : list A) : schedule [] l = l.
Proof. induction l as [|x l IH]; simpl; [done|]. by rewrite IH. Qed.

(** Every completion order is the schedule of some picks. *)
Lemma schedule_complete {A} (l l' : list A) :
  l' ≡ₚ l → ∃ picks, schedule picks l = l'.
Proof.
  revert l'. induction l as [|x l IH]; intros l' Hperm.
  - apply Permutation_nil_r in Hperm as ->. by exists [].
  - assert (x ∈ l') as (l1 & l2 & ->)%list_elem_of_split
      by (rewrite Hperm; left).
    rewrite <- Permutation_middle in Hperm.
    apply Permutation_cons_inv in Hperm.
    destruct (IH (l1 ++ l2) Hperm) as [picks Hpicks].
    exists (length l1 :: picks). simpl. rewrite Hpicks.
    unfold insert_at. by rewrite take_app_length, drop_app_length.
Qed.

Section dict_facts.
Context {K V : Type} `{EqDecision K}.
Implicit Types (d : list (K * V)) (k : K) (v : V).

Lemma dict_get_set_eq k v d : dict_get k (dict_set k v d) = Some v.
Proof.
  induction d as [|[k' v'] d IH]; simpl.
  - by rewrite decide_True.
  - destruct (decide (k = k')); simpl.
    + by rewrite decide_True.
    + by rewrite decide_False.
Qed.

Lemma dict_get_set_ne k k' v d :
  k ≠ k' → dict_get k' (dict_set k v d) = dict_get k' d.
Proof.
  intros Hne. induction d as [|[k1 v1] d IH]; simpl.
  - by rewrite decide_False.
  - destruct (decide (k = k1)) as [->|]; simpl.
    + by rewrite !decide_False.
    + destruct (decide (k' = k1)); [done|]. apply IH.
Qed.

Lemma dict_get_None k d : dict_get k d = None ↔ k ∉ dict_keys d.
Proof.
  unfold dict_keys. induction d as [|[k' v'] d IH]; simpl.
  - split; [intros _; apply not_elem_of_nil|done].
  - rewrite not_elem_of_cons. destruct (decide (k = k')) as [->|Hne].
    + split; [discriminate|]. by intros [? _].
    + rewrite IH. split; [by intros ?|]. by intros [_ ?].
Qed.

Lemma dict_get_Some_elem k v d : dict_get k d = Some v → (k, v) ∈ d.
Proof.
  induction d as [|[k' v'] d IH]; simpl; [done|].
  destruct (decide (k = k')) as [->|].
  - intros [= ->]. left.
  - intros. right. auto.
Qed.

Lemma dict_get_elem_NoDup k v d :
  NoDup (dict_keys d) → (k, v) ∈ d → dict_get k d = Some v.
Proof.
  unfold dict_keys. induction d as [|[k' v'] d IH]; simpl.
  - intros _ Hin. by apply elem_of_nil in Hin.
  - intros [Hk' Hnd]%NoDup_cons [Heq|Hin]%elem_of_cons.
    + injection Heq as -> ->. by rewrite decide_True.
    + destruct (decide (k = k')) as [->|]; [|by apply IH].
      exfalso. apply Hk'. apply list_elem_of_fmap. by exists (k', v).
Qed.

(** Assigning to a new key appends. *)
Lemma dict_set_fresh k v d : k ∉ dict_keys d → dict_set k v d = d ++ [(k, v)].
Proof.
  unfold dict_keys. induction d as [|[k' v'] d IH]; simpl; [done|].
  rewrite not_elem_of_cons. intros [Hne Hk].
  rewrite decide_False by done. by rewrite IH.
Qed.

Lemma dict_keys_set_present k v d :
  k ∈ dict_keys d → dict_keys (dict_set k v d) = dict_keys d.
Proof.
  unfold dict_keys. induction d as [|[k' v'] d IH]; simpl.
  - intros Hin. by apply elem_of_nil in Hin.
  - intros Hin. destruct (decide (k = k')) as [->|Hne]; simpl; [done|].
    f_equal. apply IH. apply elem_of_cons in Hin as [?|?]; [done|done].
Qed.

Lemma dict_get_is_Some k d : is_Some (dict_get k d) ↔ k ∈ dict_keys d.
Proof.
  rewrite <- not_eq_None_Some, dict_get_None.
  destruct (decide (k ∈ dict_keys d)); naive_solver.
Qed.
End dict_facts.

(** ** The signature audit *)




(** ** The download retry loop *)





(** ** Batches of the RPM signing stage *)

Lemma rpm_batches_app t1 t2 : rpm_batches (t1 ++ t2) = rpm_batches t1 ++ rpm_batches t2.
Proof. unfold rpm_batches. apply omap_app. Qed.

Lemma trace_call_sign_rpm E paths k pw sf cert w :
  ∃ res, w_trace (call_sign_rpm E paths k pw sf cert w).2 =
           w_trace w ++ [EvSignRpm paths k pw sf cert res] ∧
         ((call_sign_rpm E paths k pw sf cert w).1 = Ok () ∧ res = None ∨
          ∃ e, (call_sign_rpm E paths k pw sf cert w).1 = Raise e ∧ res = Some e).
Proof.
  unfold call_sign_rpm.
  destruct (sign_rpm_package E w paths k pw sf cert) as [e|fs]; simpl.
  - exists (Some e). split; [done|]. right. by exists e.
  - exists None. split; [done|]. by left.
Qed.

Lemma flush_condition {A} (acc : list A) (p : A) :
  (length acc < 50)%nat →
  (length (acc ++ [p]) `mod` 50 =? 0)%nat = bool_decide (length (acc ++ [p]) = 50%nat).
Proof.
  intros Hacc. rewrite length_app. change (length [p]) with 1%nat.
  destruct (decide (length acc + 1 = 50)%nat) as [Heq|Hne].
  - rewrite Heq. by rewrite bool_decide_eq_true_2.
  - rewrite bool_decide_eq_false_2 by done.
    rewrite Nat.mod_small by lia. apply Nat.eqb_neq. lia.
Qed.

Lemma sign_rpm_loop_cons E k pw sf cert p globbed acc :
  sign_rpm_loop E k pw sf cert (p :: globbed) acc =
  if (length (acc ++ [p]) `mod` 50 =? 0)%nat then
    bind (call_sign_rpm E (acc ++ [p]) k pw sf cert)
      (λ _, sign_rpm_loop E k pw sf cert globbed [])
  else sign_rpm_loop E k pw sf cert globbed (acc ++ [p]).
Proof. reflexivity. Qed.

(** The loop flushes exactly the batches of fifty paths and keeps fewer
    than fifty pending. *)
Lemma sign_rpm_loop_spec E k pw sf cert globbed acc w :
  (length acc < 50)%nat →
  let run := sign_rpm_loop E k pw sf cert globbed acc w in
  ∃ t, w_trace run.2 = w_trace w ++ t ∧
       Forall (λ ev, is_Some (sign_rpm_batch ev)) t ∧
       Forall (λ b, length b = 50%nat) (rpm_batches t) ∧
       match run.1 with
       | Ok rest =>
           concat (rpm_batches t) ++ rest = acc ++ globbed ∧
           (length rest < 50)%nat
       | Raise e => True
       end.
Proof.
  revert acc w. induction globbed as [|p globbed IH]; intros acc w Hacc run.
  - exists []. subst run. simpl. rewrite !app_nil_r. by repeat split.
  - subst run. rewrite sign_rpm_loop_cons.
    rewrite flush_condition by done.
    destruct (bool_decide (length (acc ++ [p]) = 50%nat)) eqn:Hmod.
    + apply bool_decide_eq_true in Hmod as Hlen.
      unfold bind.
      destruct (trace_call_sign_rpm E (acc ++ [p]) k pw sf cert w)
        as (res & Htr & Hres).
      destruct (call_sign_rpm E (acc ++ [p]) k pw sf cert w) as [[[]|e] w1];
        simpl in *.
      * destruct (IH [] w1) as (t & Htr' & Hev & Hb & Hok); [simpl; lia|].
        exists (EvSignRpm (acc ++ [p]) k pw sf cert res :: t).
        split; [|split; [|split]].
        -- rewrite Htr', Htr. by rewrite <- app_assoc.
        -- constructor; [by eexists|done].
        -- simpl. by constructor.
        -- destruct (sign_rpm_loop E k pw sf cert globbed [] w1).1; [|done].
           destruct Hok as [Hcat Hrest]. split; [|done]. simpl.
           rewrite <- !app_assoc. simpl. by rewrite Hcat.
      * exists [EvSignRpm (acc ++ [p]) k pw sf cert res].
        split; [done|]. split; [|split; [|done]].
        -- constructor; [by eexists|done].
        -- simpl. constructor; [done|constructor].
    + assert (length (acc ++ [p]) < 50)%nat as Hlen.
      { apply bool_decide_eq_false in Hmod. rewrite length_app in *.
        simpl in *. lia. }
      destruct (IH (acc ++ [p]) w Hlen) as (t & Htr & Hev & Hb & Hok).
      exists t. split; [done|]. split; [done|]. split; [done|].
      destruct (sign_rpm_loop E k pw sf cert globbed (acc ++ [p]) w).1; [|done].
      by rewrite <- app_assoc in Hok.
Qed.

Lemma sign_rpm_loop_never_fails E k pw sf cert globbed acc w :
  (∀ w' paths, ∃ fs, sign_rpm_package E w' paths k pw sf cert = inr fs) →
  ∃ rest, (sign_rpm_loop E k pw sf cert globbed acc w).1 = Ok rest.
Proof.
  intros Hok. revert acc w.
  induction globbed as [|p globbed IH]; intros acc w; [by eexists|].
  rewrite sign_rpm_loop_cons.
  destruct (length (acc ++ [p]) `mod` 50 =? 0)%nat; [|apply IH].
  unfold bind, call_sign_rpm.
  destruct (Hok w (acc ++ [p])) as [fs ->]. apply IH.
Qed.


Lemma sign_rpms_spec E k pw sf cert globbed w :
  let run := sign_rpms E k pw sf cert globbed w in
  ∃ t, w_trace run.2 = w_trace w ++ t ∧
       Forall (λ ev, is_Some (sign_rpm_batch ev)) t ∧
       Forall (λ b, 1 ≤ length b ≤ 50)%nat (rpm_batches t) ∧
       ((∀ w' paths, ∃ fs, sign_rpm_package E w' paths k pw sf cert = inr fs) →
        run.1 = Ok () ∧
        ∃ full rest, rpm_batches t = full ++ rest ∧
          Forall (λ b, length b = 50%nat) full ∧
          (length (concat rest) < 50)%nat ∧
          (rest = [] ∨ ∃ b, rest = [b]) ∧
          concat full ++ concat rest = globbed).
Proof.
  intros run. subst run. unfold sign_rpms, bind.
  destruct (sign_rpm_loop_spec E k pw sf cert globbed [] w)
    as (t & Htr & Hev & Hb & Hres); [simpl; lia|].
  pose proof (sign_rpm_loop_never_fails E k pw sf cert globbed [] w) as Hnf.
  destruct (sign_rpm_loop E k pw sf cert globbed [] w) as [[rest|e] w1];
    simpl in *.
  - destruct Hres as [Hcat Hrest]. destruct rest as [|p rest].
    + exists t. simpl. split; [done|]. split; [done|]. split.
      { eapply Forall_impl; [exact Hb|]. simpl. lia. }
      intros _. split; [done|]. exists (rpm_batches t), [].
      rewrite !app_nil_r in *.
      split; [done|]. split; [done|]. split; [simpl; lia|].
      split; [by left|done].
    + destruct (trace_call_sign_rpm E (p :: rest) k pw sf cert w1)
        as (res & Htr' & Hres).
      exists (t ++ [EvSignRpm (p :: rest) k pw sf cert res]).
      split; [by rewrite Htr', Htr, <- app_assoc|].
      split; [apply Forall_app; split; [done|]; constructor; [by eexists|done]|].
      rewrite rpm_batches_app. simpl. split.
      { apply Forall_app. split.
        - eapply Forall_impl; [exact Hb|]. simpl. lia.
        - constructor; [|done]. simpl in *. lia. }
      intros Hok. split.
      { unfold call_sign_rpm. by destruct (Hok w1 (p :: rest)) as [fs ->]. }
      exists (rpm_batches t), [p :: rest].
      split; [done|]. split; [done|].
      split; [simpl; by rewrite app_nil_r|].
      split; [right; by eexists|].
      simpl. by rewrite app_nil_r.
  - exists t. split; [done|]. split; [done|]. split.
    { eapply Forall_impl; [exact Hb|]. simpl. lia. }
    intros Hok. by destruct (Hnf Hok).
Qed.


(** ** Reasoning about monadic code *)

Lemma bind_inv {A B} (m : M A) (f : A → M B) w r w' :
  bind m f w = (r, w') →
  (∃ a w1, m w = (Ok a, w1) ∧ f a w1 = (r, w')) ∨
  (∃ e, m w = (Raise e, w') ∧ r = Raise e).
Proof.
  unfold bind. destruct (m w) as [[a|e] w1]; intros Heq.
  - left. eauto.
  - right. injection Heq as <- <-. eauto.
Qed.

Lemma bind_Ok_inv {A B} (m : M A) (f : A → M B) w b w' :
  bind m f w = (Ok b, w') →
  ∃ a w1, m w = (Ok a, w1) ∧ f a w1 = (Ok b, w').
Proof.
  intros [Hok|(e & _ & Hr)]%bind_inv; [done|discriminate].
Qed.

Lemma hash_file_Ok p w h w' :
  hash_file p w = (Ok h, w') →
  w' = w ∧ ∃ f, w_files w !! p = Some f ∧ h = f_sha256 f.
Proof.
  unfold hash_file. destruct (w_files w !! p) as [f|]; [|discriminate].
  intros [= <- <-]. eauto.
Qed.

Lemma update_package_Ok id f packages w packages' w' :
  update_package id f packages w = (Ok packages', w') →
  w' = w ∧ ∃ p, dict_get id packages = Some p ∧
                packages' = dict_set id (f p) packages.
Proof.
  unfold update_package. destruct (dict_get id packages); [|discriminate].
  intros [= <- <-]. eauto.
Qed.

(** ** The planning loop *)

Lemma plan_first_seen_Ok S t h P w P' w' :
  plan_first_seen S t h P w = (Ok P', w') →
  is_Some (w_files w !! dl_path t) →
  w' = w ∧ P' = plan_add S (w_files w) t h P.
Proof.
  unfold plan_first_seen, plan_add, eligible, bind, stat_size, ret.
  intros Hrun [f Hf]. rewrite Hf.
  destruct (parallel_upload S); simpl in *;
    [rewrite Hf in Hrun; simpl in Hrun|]; by injection Hrun as <- <-.
Qed.

Lemma update_package_step id f packages w packages' w' :
  update_package id f packages w = (Ok packages', w') →
  (∀ p, sp_pkg (f p) = sp_pkg p ∧ sp_href (f p) = sp_href p) →
  w' = w ∧ dict_keys packages' = dict_keys packages ∧
  (∀ id', id' ≠ id → dict_get id' packages' = dict_get id' packages) ∧
  ∃ p, dict_get id packages = Some p ∧ dict_get id packages' = Some (f p).
Proof.
  intros (-> & p & Hp & ->)%update_package_Ok Hf. split; [done|].
  split; [|split].
  - apply dict_keys_set_present. apply dict_get_is_Some. by eexists.
  - intros id' Hne. by apply dict_get_set_ne.
  - exists p. split; [done|]. apply dict_get_set_eq.
Qed.

Lemma plan_step_Ok E S pvm t P pk w P' pk' w' :
  plan_step E S pvm t (P, pk) w = (Ok (P', pk'), w') →
  ∃ f, w_files w !! dl_path t = Some f ∧ w_files w' = w_files w ∧
       P' = (if decide (f_sha256 f ∈ files_to_upload P) then P
             else plan_add S (w_files w) t (f_sha256 f) P) ∧
       packages_step t (f_sha256 f) pk pk'.
Proof.
  unfold plan_step. intros (pk1 & w1 & Hnot & Hrun)%bind_Ok_inv.
  apply bind_Ok_inv in Hrun as (h & w2 & Hhash & Hrun).
  apply bind_Ok_inv in Hrun as (P1 & w3 & Hplan & Hrun).
  apply bind_Ok_inv in Hrun as (pk2 & w4 & Hupd & Hret).
  injection Hret as <- <- <-.
  apply hash_file_Ok in Hhash as (-> & f & Hf & ->).
  assert (w_files w1 = w_files w ∧ dict_keys pk1 = dict_keys pk ∧
          (∀ id, id ≠ dl_id t → dict_get id pk1 = dict_get id pk) ∧
          ∃ p p1, dict_get (dl_id t) pk = Some p ∧
                  (dict_get (dl_id t) pk1 = Some p1 ∨ pk1 = pk) ∧
                  sp_pkg p1 = sp_pkg p ∧ sp_href p1 = sp_href p)
    as (Hfs1 & Hk1 & Hother1 & Hentry1).
  { apply update_package_Ok in Hupd as (_ & p2 & Hp2 & _).
    destruct (dict_get (dl_path t) pvm) as [meta|];
      [destruct (notar_enabled S)|].
    - apply bind_Ok_inv in Hnot as (cas & w0 & Hcall & Hupd1).
      assert (w_files w0 = w_files w) as Hw0.
      { unfold call_notarize in Hcall.
        destruct (notarize_artifact E w (dl_path t) meta);
          by simplify_eq/=. }
      apply update_package_step in Hupd1 as (-> & Hk & Hother & p & Hp & Hp');
        [|done].
      repeat (split; [done|]).
      exists p, (set_cas_hash cas p). split; [done|]. split; [by left|done].
    - injection Hnot as <- <-. repeat (split; [done|]).
      exists p2, p2. split; [done|]. split; [by right|done].
    - injection Hnot as <- <-. repeat (split; [done|]).
      exists p2, p2. split; [done|]. split; [by right|done]. }
  rewrite Hfs1 in Hf.
  exists f. split; [done|].
  assert (w3 = w1 ∧
          P1 = (if decide (f_sha256 f ∈ files_to_upload P) then P
                else plan_add S (w_files w) t (f_sha256 f) P)) as [-> ->].
  { destruct (decide (f_sha256 f ∈ files_to_upload P)) as [Hin|Hin].
    - rewrite bool_decide_eq_false_2 in Hplan by (by intros ?).
      by injection Hplan as <- <-.
    - rewrite bool_decide_eq_true_2 in Hplan by done.
      apply plan_first_seen_Ok in Hplan as [-> ->]; [by rewrite Hfs1|].
      rewrite Hfs1, Hf. by eexists. }
  apply update_package_step in Hupd as (-> & Hk & Hother & p1 & Hp1 & Hp1');
    [|done].
  split; [done|]. split; [done|].
  split; [congruence|]. split.
  - intros id Hne. rewrite Hother by done. by apply Hother1.
  - destruct Hentry1 as (p & p1' & Hp & Hcase & Hpkg & Hhref).
    exists p, (set_sha256 (f_sha256 f) p1). split; [done|]. split; [done|].
    simpl. destruct Hcase as [Hp1''| ->].
    + rewrite Hp1 in Hp1''. injection Hp1'' as ->. by repeat split.
    + rewrite Hp1 in Hp. injection Hp as ->. by repeat split.
Qed.

Lemma plan_loop_Ok E S pvm l P0 pk0 w P pk w' :
  plan_loop E S pvm l (P0, pk0) w = (Ok (P, pk), w') →
  w_files w' = w_files w ∧
  Forall (λ t, is_Some (w_files w !! dl_path t)) l ∧
  P = plan_pure S (w_files w) l P0.
Proof.
  revert P0 pk0 w. induction l as [|t l IH]; intros P0 pk0 w; simpl.
  - by intros [= <- <- <-].
  - intros ([P1 pk1] & w1 & Hstep & Hloop)%bind_Ok_inv.
    apply plan_step_Ok in Hstep as (f & Hf & Hfs & -> & _).
    apply IH in Hloop as (Hfs' & Hall & ->). rewrite Hfs in *.
    split; [done|]. split; [constructor; [by rewrite Hf|done]|].
    unfold plan_pure at 2. simpl. unfold sha_of at 2. rewrite Hf. simpl.
    done.
Qed.

Lemma plan_add_wf S fs t h P : plan_wf P → plan_wf (plan_add S fs t h P).
Proof.
  intros [Hpar Hseq]. unfold plan_add.
  split; simpl; intros h'; destruct (eligible S fs t); intros Hin.
  - destruct (decide (h ∈ dict_keys (parallel_upload_files P))) as [Hk|Hk].
    + rewrite dict_keys_set_present in Hin by done. set_solver.
    + rewrite dict_set_fresh in Hin by done. unfold dict_keys in *.
      rewrite fmap_app in Hin. set_solver.
  - set_solver.
  - set_solver.
  - destruct (decide (h ∈ dict_keys (sequential_upload_files P))) as [Hk|Hk].
    + rewrite dict_keys_set_present in Hin by done. set_solver.
    + rewrite dict_set_fresh in Hin by done. unfold dict_keys in *.
      rewrite fmap_app in Hin. set_solver.
Qed.

Lemma plan_pure_cons S fs t l P :
  plan_pure S fs (t :: l) P =
  plan_pure S fs l
    match sha_of fs t with
    | Some h =>
        if decide (h ∈ files_to_upload P) then P else plan_add S fs t h P
    | None => P
    end.
Proof. reflexivity. Qed.

(** The planning loop queues the first artifact of each digest and no
    other, and lists for the audit those among them whose path contains
    [".rpm"]. *)
Lemma plan_pure_spec S fs l P0 :
  plan_wf P0 →
  let P := plan_pure S fs l P0 in
  let firsts := first_seen fs (files_to_upload P0) l in
  plan_wf P ∧
  files_to_upload P = files_to_upload P0 ∪ list_to_set firsts.*1 ∧
  parallel_upload_files P =
    parallel_upload_files P0 ++ filter (λ ht, eligible S fs ht.2) firsts ∧
  sequential_upload_files P =
    sequential_upload_files P0 ++ filter (λ ht, ¬ eligible S fs ht.2) firsts ∧
  files_to_check P =
    files_to_check P0 ++
    (dl_path <$> filter (λ t, contains ".rpm" (dl_path t)) firsts.*2).
Proof.
  revert P0. induction l as [|t l IH]; intros P0 Hwf.
  - simpl. rewrite !app_nil_r. repeat split; [apply Hwf..|set_solver].
  - rewrite plan_pure_cons. simpl.
    destruct (sha_of fs t) as [h|]; [|by apply IH].
    destruct (decide (h ∈ files_to_upload P0)) as [Hin|Hin]; [by apply IH|].
    destruct (IH (plan_add S fs t h P0) (plan_add_wf S fs t h P0 Hwf))
      as (Hwf' & Hftu & Hpar & Hseq & Hchk).
    split; [done|]. simpl in *. split; [|split; [|split]].
    + rewrite Hftu. set_solver.
    + rewrite Hpar. rewrite filter_cons. simpl.
      destruct (eligible S fs t) eqn:Hel; simpl.
      * rewrite dict_set_fresh; [by rewrite <- app_assoc|].
        intros Hk. by apply Hwf in Hk.
      * done.
    + rewrite Hseq. rewrite filter_cons. simpl.
      destruct (eligible S fs t) eqn:Hel; simpl.
      * done.
      * rewrite dict_set_fresh; [by rewrite <- app_assoc|].
        intros Hk. by apply Hwf in Hk.
    + rewrite Hchk. rewrite filter_cons. simpl.
      destruct (contains ".rpm" (dl_path t)) eqn:Hrpm; simpl.
      * by rewrite <- app_assoc.
      * done.
Qed.

Lemma first_seen_first_occurrence fs seen l h t :
  (h, t) ∈ first_seen fs seen l ↔ (h ∉ seen) ∧ first_occurrence fs l t h.
Proof.
  split.
  - revert seen. induction l as [|t0 l IH]; intros seen; simpl.
    { intros Hin. by apply elem_of_nil in Hin. }
    destruct (sha_of fs t0) as [h0|] eqn:Hsha0.
    + destruct (decide (h0 ∈ seen)) as [Hseen|Hseen].
      * intros (Hh & l1 & l2 & -> & Hsha & Hall)%IH. split; [done|].
        exists (t0 :: l1), l2. split; [done|]. split; [done|].
        constructor; [|done]. rewrite Hsha0. intros [= ->]. done.
      * intros [[= -> ->]|Hin]%elem_of_cons.
        { split; [done|]. exists [], l. by repeat split. }
        apply IH in Hin as (Hh & l1 & l2 & -> & Hsha & Hall).
        split; [set_solver|].
        exists (t0 :: l1), l2. split; [done|]. split; [done|].
        constructor; [|done]. rewrite Hsha0. intros [= ->]. set_solver.
    + intros (Hh & l1 & l2 & -> & Hsha & Hall)%IH. split; [done|].
      exists (t0 :: l1), l2. split; [done|]. split; [done|].
      constructor; [|done]. by rewrite Hsha0.
  - intros (Hh & l1 & l2 & -> & Hsha & Hall).
    revert seen Hh. induction l1 as [|t0 l1 IH]; intros seen Hh; simpl.
    + rewrite Hsha. rewrite decide_False by done. left.
    + apply Forall_cons in Hall as [Ht0 Hall].
      destruct (sha_of fs t0) as [h0|] eqn:Hsha0; [|by apply IH].
      destruct (decide (h0 ∈ seen)); [by apply IH|].
      right. apply IH; [done|]. set_solver.
Qed.

Lemma first_seen_NoDup fs seen l : NoDup (first_seen fs seen l).*1.
Proof.
  revert seen. induction l as [|t l IH]; intros seen; simpl; [constructor|].
  destruct (sha_of fs t) as [h|]; [|apply IH].
  destruct (decide (h ∈ seen)); [apply IH|].
  simpl. constructor; [|apply IH].
  intros ([h' t'] & Heq & Hin)%list_elem_of_fmap. simpl in Heq. subst h'.
  apply first_seen_first_occurrence in Hin as [Hh _]. set_solver.
Qed.

Lemma first_seen_covers fs seen l t h :
  t ∈ l → sha_of fs t = Some h → h ∈ seen ∨ h ∈ (first_seen fs seen l).*1.
Proof.
  revert seen. induction l as [|t0 l IH]; intros seen Hin Hsha.
  { by apply elem_of_nil in Hin. }
  simpl. apply elem_of_cons in Hin as [->|Hin].
  - rewrite Hsha. destruct (decide (h ∈ seen)); [by left|]. right. left.
  - destruct (sha_of fs t0) as [h0|]; [|by apply IH].
    destruct (decide (h0 ∈ seen)); [by apply IH|].
    destruct (IH ({[h0]} ∪ seen) Hin Hsha) as [Hs|Hf].
    + apply elem_of_union in Hs as [->%elem_of_singleton|?]; [|by left].
      right. left.
    + right. by right.
Qed.

Lemma first_occurrence_exists fs l t h :
  t ∈ l → sha_of fs t = Some h → ∃ t', first_occurrence fs l t' h.
Proof.
  intros Hin Hsha.
  destruct (first_seen_covers fs ∅ l t h Hin Hsha) as [Hs|Hf]; [set_solver|].
  apply list_elem_of_fmap in Hf as ([h' t'] & Heq & Hf). simpl in Heq. subst h'.
  exists t'. by apply first_seen_first_occurrence in Hf as [_ ?].
Qed.

Lemma first_occurrence_unique fs l t t' h :
  first_occurrence fs l t h → first_occurrence fs l t' h → t = t'.
Proof.
  intros H1 H2.
  assert ((h, t) ∈ first_seen fs ∅ l) as Hin1
    by (apply first_seen_first_occurrence; split; [set_solver|done]).
  assert ((h, t') ∈ first_seen fs ∅ l) as Hin2
    by (apply first_seen_first_occurrence; split; [set_solver|done]).
  pose proof (first_seen_NoDup fs ∅ l) as Hnd.
  apply (dict_get_elem_NoDup _ _ _ Hnd) in Hin1, Hin2. congruence.
Qed.

Lemma first_occurrence_elem fs l t h : first_occurrence fs l t h → t ∈ l.
Proof. intros (l1 & l2 & -> & _). apply elem_of_app. right. left. Qed.

Lemma eligible_spec S fs t f :
  fs !! dl_path t = Some f →
  eligible S fs t = true ↔
  parallel_upload S = true ∧ (f_size f ≤ parallel_upload_file_size S)%N.
Proof.
  intros Hf. unfold eligible. rewrite Hf, andb_true_iff.
  by rewrite bool_decide_eq_true.
Qed.

(** The plan computed from the empty plan. *)
Lemma plan_loop_empty_Ok E S pvm l pk0 w P pk w' :
  plan_loop E S pvm l (empty_plan, pk0) w = (Ok (P, pk), w') →
  let fs := w_files w in
  let firsts := first_seen fs ∅ l in
  w_files w' = fs ∧
  Forall (λ t, is_Some (fs !! dl_path t)) l ∧
  parallel_upload_files P = filter (λ ht, eligible S fs ht.2) firsts ∧
  sequential_upload_files P = filter (λ ht, ¬ eligible S fs ht.2) firsts ∧
  files_to_check P =
    dl_path <$> filter (λ t, contains ".rpm" (dl_path t)) firsts.*2.
Proof.
  intros (Hfs & Hall & ->)%plan_loop_Ok fs firsts.
  assert (plan_wf empty_plan) as Hwf.
  { split; simpl; intros h Hin; by apply elem_of_nil in Hin. }
  destruct (plan_pure_spec S fs l empty_plan Hwf)
    as (_ & _ & Hpar & Hseq & Hchk).
  by repeat split.
Qed.

Lemma first_seen_filter_keys fs l (Q : dl_info → Prop)
    `{∀ t, Decision (Q t)} h t :
  first_occurrence fs l t h →
  h ∈ (filter (λ ht, Q ht.2) (first_seen fs ∅ l)).*1 ↔ Q t.
Proof.
  intros Hocc. rewrite list_elem_of_fmap. split.
  - intros ([h' t'] & Heq & [Hq Hin]%list_elem_of_filter).
    simpl in *. subst h'.
    apply first_seen_first_occurrence in Hin as [_ Hocc'].
    by rewrite (first_occurrence_unique _ _ _ _ _ Hocc Hocc').
  - intros Hq. exists (h, t). split; [done|].
    apply list_elem_of_filter. split; [done|].
    apply first_seen_first_occurrence. split; [set_solver|done].
Qed.

(** C9. A first-seen artifact is queued for parallel upload exactly
    when the parallel-upload flag is set and the size of its file is at
    most the configured threshold (52,428,800 bytes when the threshold is
    [DEFAULT_PARALLEL_FILE_UPLOAD_SIZE]), and for sequential upload
    otherwise.  The assignment does not depend on the order of
    processing: under any other order in which the artifact is again the
    first of its digest it is queued in the same set, and when artifacts
    of equal digest have equal size every digest is queued in the same
    set under both orders. *)
Theorem parallel_upload_eligibility
    (E : env) (S : signer) (pvm : list (string * string))
    (downloaded : list dl_info) (packages packages' : list (Z * signed_package))
    (w w' : world) (P : plan) (t : dl_info) (h : string) (f : file) :
  plan_loop E S pvm downloaded (empty_plan, packages) w = (Ok (P, packages'), w') →
  first_occurrence (w_files w) downloaded t h →
  w_files w !! dl_path t = Some f →
  let fits := parallel_upload S = true ∧
              (f_size f ≤ parallel_upload_file_size S)%N in
  ((h, t) ∈ parallel_upload_files P ↔ fits) ∧
  ((h, t) ∈ sequential_upload_files P ↔ ¬ fits) ∧
  (parallel_upload_file_size S = DEFAULT_PARALLEL_FILE_UPLOAD_SIZE →
   (h, t) ∈ parallel_upload_files P ↔
   parallel_upload S = true ∧ (f_size f ≤ 52428800)%N) ∧
  (∀ downloaded' pk1 pk1' w1' P',
      downloaded' ≡ₚ downloaded →
      plan_loop E S pvm downloaded' (empty_plan, pk1) w = (Ok (P', pk1'), w1') →
      (first_occurrence (w_files w) downloaded' t h →
       ((h, t) ∈ parallel_upload_files P ↔ (h, t) ∈ parallel_upload_files P') ∧
       ((h, t) ∈ sequential_upload_files P ↔
        (h, t) ∈ sequential_upload_files P')) ∧
      ((∀ t1 t2, t1 ∈ downloaded → t2 ∈ downloaded →
                 sha_of (w_files w) t1 = sha_of (w_files w) t2 →
                 f_size <$> w_files w !! dl_path t1 =
                 f_size <$> w_files w !! dl_path t2) →
       (h ∈ dict_keys (parallel_upload_files P) ↔
        h ∈ dict_keys (parallel_upload_files P')) ∧
       (h ∈ dict_keys (sequential_upload_files P) ↔
        h ∈ dict_keys (sequential_upload_files P')))).
Proof.
  intros Hplan Hfirst Hf fits.
  apply plan_loop_empty_Ok in Hplan as (_ & _ & Hpar & Hseq & _).
  assert ((h, t) ∈ first_seen (w_files w) ∅ downloaded) as Hin
    by (apply first_seen_first_occurrence; split; [set_solver|done]).
  assert (∀ l (P0 : plan),
            parallel_upload_files P0 =
              filter (λ ht, eligible S (w_files w) ht.2)
                (first_seen (w_files w) ∅ l) →
            first_occurrence (w_files w) l t h →
            (h, t) ∈ parallel_upload_files P0 ↔ fits) as Hpar_iff.
  { intros l P0 -> Hocc. rewrite list_elem_of_filter. simpl.
    rewrite Is_true_true, (eligible_spec S _ t f Hf).
    split; [by intros [? _]|]. intros Hfits. split; [done|].
    apply first_seen_first_occurrence. split; [set_solver|done]. }
  assert (∀ l (P0 : plan),
            sequential_upload_files P0 =
              filter (λ ht, ¬ eligible S (w_files w) ht.2)
                (first_seen (w_files w) ∅ l) →
            first_occurrence (w_files w) l t h →
            (h, t) ∈ sequential_upload_files P0 ↔ ¬ fits) as Hseq_iff.
  { intros l P0 -> Hocc. rewrite list_elem_of_filter. simpl.
    rewrite Is_true_true, (eligible_spec S _ t f Hf).
    split; [by intros [? _]|]. intros Hfits. split; [done|].
    apply first_seen_first_occurrence. split; [set_solver|done]. }
  split; [by eapply Hpar_iff|]. split; [by eapply Hseq_iff|].
  split.
  { intros Hdef. rewrite (Hpar_iff downloaded P Hpar Hfirst).
    subst fits. rewrite Hdef. done. }
  intros downloaded' pk1 pk1' w1' P' Hperm Hplan'.
  apply plan_loop_empty_Ok in Hplan' as (_ & _ & Hpar' & Hseq' & _).
  split.
  { intros Hfirst'.
    rewrite (Hpar_iff downloaded P Hpar Hfirst),
            (Hpar_iff downloaded' P' Hpar' Hfirst'),
            (Hseq_iff downloaded P Hseq Hfirst),
            (Hseq_iff downloaded' P' Hseq' Hfirst'). done. }
  intros Hsize.
  assert (∃ t', first_occurrence (w_files w) downloaded' t' h) as [t' Hocc'].
  { apply (first_occurrence_exists _ _ t).
    - rewrite Hperm. by eapply first_occurrence_elem.
    - by destruct Hfirst as (_ & _ & _ & ? & _). }
  assert (eligible S (w_files w) t' = eligible S (w_files w) t) as Hel.
  { unfold eligible. f_equal.
    assert (f_size <$> w_files w !! dl_path t' =
            f_size <$> w_files w !! dl_path t) as Hsz.
    { apply Hsize.
      - rewrite <- Hperm. by eapply first_occurrence_elem.
      - by eapply first_occurrence_elem.
      - destruct Hfirst as (_ & _ & _ & -> & _).
        by destruct Hocc' as (_ & _ & _ & -> & _). }
    destruct (w_files w !! dl_path t'), (w_files w !! dl_path t);
      simpl in Hsz; [|done..].
    injection Hsz as Hsz. by rewrite Hsz. }
  unfold dict_keys. rewrite Hpar, Hpar', Hseq, Hseq'.
  pose proof (first_seen_filter_keys _ downloaded
                (λ t, eligible S (w_files w) t) h t Hfirst) as K1.
  pose proof (first_seen_filter_keys _ downloaded'
                (λ t, eligible S (w_files w) t) h t' Hocc') as K2.
  pose proof (first_seen_filter_keys _ downloaded
                (λ t, ¬ eligible S (w_files w) t) h t Hfirst) as K3.
  pose proof (first_seen_filter_keys _ downloaded'
                (λ t, ¬ eligible S (w_files w) t) h t' Hocc') as K4.
  simpl in K1, K2, K3, K4. rewrite K1, K2, K3, K4. by rewrite Hel.
Qed.

(** ** The files handed to the signature audit *)



(** ** Which stage talks to which collaborator *)

Section emits.
Context {A B : Type} (Q : event → Prop).

Lemma emits_silent (m : M A) :
  (∀ w, w_trace (m w).2 = w_trace w) → emits Q m.
Proof. intros Hm w. exists []. by rewrite app_nil_r, Hm. Qed.

Lemma emits_ret (a : A) : emits Q (ret a).
Proof. by apply emits_silent. Qed.

Lemma emits_raise e : emits Q (raise (A:=A) e).
Proof. by apply emits_silent. Qed.

Lemma emits_lift (r : result A) : emits Q (lift r).
Proof. by apply emits_silent. Qed.

Lemma emits_bind (m : M A) (f : A → M B) :
  emits Q m → (∀ a, emits Q (f a)) → emits Q (bind m f).
Proof.
  intros Hm Hf w. unfold bind. destruct (Hm w) as (t1 & Htr1 & Hq1).
  destruct (m w) as [[a|e] w1]; simpl in *.
  - destruct (Hf a w1) as (t2 & Htr2 & Hq2).
    exists (t1 ++ t2). split; [by rewrite Htr2, Htr1, app_assoc|].
    by apply Forall_app.
  - by exists t1.
Qed.

Lemma emits_impl (Q' : event → Prop) (m : M A) :
  (∀ ev, Q' ev → Q ev) → emits Q' m → emits Q m.
Proof.
  intros Himpl Hm w. destruct (Hm w) as (t & Htr & Hq).
  exists t. split; [done|]. by eapply Forall_impl.
Qed.

Lemma emits_one (m : M A) :
  (∀ w, ∃ ev, w_trace (m w).2 = w_trace w ++ [ev] ∧ Q ev) → emits Q m.
Proof.
  intros Hm w. destruct (Hm w) as (ev & Htr & Hq).
  exists [ev]. split; [done|]. by constructor.
Qed.
End emits.

Lemma emits_safe_mkdir Q d : emits Q (safe_mkdir d).
Proof. by apply emits_silent. Qed.

Lemma emits_hash_file Q p : emits Q (hash_file p).
Proof.
  apply emits_silent. intros w. unfold hash_file. by destruct (w_files w !! p).
Qed.

Lemma emits_stat_size Q p : emits Q (stat_size p).
Proof.
  apply emits_silent. intros w. unfold stat_size. by destruct (w_files w !! p).
Qed.

Lemma emits_update_package Q id f packages :
  emits Q (update_package id f packages).
Proof.
  apply emits_silent. intros w. unfold update_package.
  by destruct (dict_get id packages).
Qed.

Lemma emits_call_download E url dest : emits is_download (call_download E url dest).
Proof.
  apply emits_one. intros w. unfold call_download.
  destruct (download_file E w url dest); by eexists.
Qed.

Lemma emits_call_notarize E p m : emits is_notarize (call_notarize E p m).
Proof.
  apply emits_one. intros w. unfold call_notarize.
  destruct (notarize_artifact E w p m); by eexists.
Qed.

Lemma emits_call_sign_rpm E paths k pw sf cert :
  emits is_signing (call_sign_rpm E paths k pw sf cert).
Proof.
  apply emits_one. intros w. unfold call_sign_rpm.
  destruct (sign_rpm_package E w paths k pw sf cert); by eexists.
Qed.

Lemma emits_call_sign_deb E p k pw : emits is_signing (call_sign_deb E p k pw).
Proof.
  apply emits_one. intros w. unfold call_sign_deb.
  destruct (sign_deb_package E w p k pw); by eexists.
Qed.

Lemma emits_call_sign_dsc E p k pw : emits is_signing (call_sign_dsc E p k pw).
Proof.
  apply emits_one. intros w. unfold call_sign_dsc.
  destruct (sign_dsc_package E w p k pw); by eexists.
Qed.

Lemma emits_download_attempts E url dest n last_exc :
  emits is_download (download_attempts E url dest n last_exc).
Proof.
  revert last_exc. induction n as [|n IH]; intros last_exc; simpl.
  - destruct last_exc; apply emits_raise.
  - intros w. destruct (emits_call_download E url dest w) as (t1 & Htr1 & Hq1).
    destruct (call_download E url dest w) as [[[]|e] w1]; simpl in *.
    + by exists t1.
    + destruct (IH (Some e) w1) as (t2 & Htr2 & Hq2).
      exists (t1 ++ t2). split; [by rewrite Htr2, Htr1, app_assoc|].
      by apply Forall_app.
Qed.

Lemma emits_download_package E rpms_dir debs_dir pkg platform :
  emits is_download (download_package E rpms_dir debs_dir pkg platform).
Proof.
  unfold download_package. apply emits_bind; [|intros; apply emits_ret].
  unfold _download_package. apply emits_bind; [apply emits_safe_mkdir|].
  intros _. destruct (package_file_name pkg); [|apply emits_raise].
  destruct (pkg_download_url pkg); [|apply emits_raise].
  apply emits_download_attempts.
Qed.

Lemma trace_run_downloads E rpms_dir debs_dir jobs pim w :
  ∃ t, w_trace (run_downloads E rpms_dir debs_dir jobs pim w).2 =
         w_trace w ++ t ∧ Forall is_download t.
Proof.
  revert pim w. induction jobs as [|[pkg platform] jobs IH]; intros pim w.
  - exists []. by rewrite app_nil_r.
  - simpl.
    destruct (emits_download_package E rpms_dir debs_dir pkg platform w)
      as (t1 & Htr1 & Hq1).
    destruct (download_package E rpms_dir debs_dir pkg platform w)
      as [[r|e] w1]; simpl in *.
    + destruct (IH (dict_set (dl_path r.2) pkg pim) w1) as (t2 & Htr2 & Hq2).
      destruct (run_downloads E rpms_dir debs_dir jobs _ w1) as [[rs pim'] w2].
      simpl in *. exists (t1 ++ t2).
      split; [by rewrite Htr2, Htr1, app_assoc|]. by apply Forall_app.
    + destruct (IH pim w1) as (t2 & Htr2 & Hq2).
      destruct (run_downloads E rpms_dir debs_dir jobs _ w1) as [[rs pim'] w2].
      simpl in *. exists (t1 ++ t2).
      split; [by rewrite Htr2, Htr1, app_assoc|]. by apply Forall_app.
Qed.

Lemma emits_fetch_stage E task fingerprint rpms_dir debs_dir :
  emits is_download (fetch_stage E task fingerprint rpms_dir debs_dir).
Proof.
  intros w. unfold fetch_stage.
  match goal with
  | |- context [run_downloads E rpms_dir debs_dir ?jobs [] w] =>
      destruct (trace_run_downloads E rpms_dir debs_dir jobs [] w)
        as (t & Htr & Hq);
      destruct (run_downloads E rpms_dir debs_dir jobs [] w) as [[rs pim] w1]
  end.
  exists t. split; [|done].
  by destruct (collect_downloads fingerprint rs [] []) as [[? ?]|?].
Qed.

(** The verification loop calls the verification collaborator only,
    and only when verification is enabled; when it completes every call
    has passed. *)
Lemma trace_verify_loop E S items pvm w :
  ∃ t, w_trace (verify_loop E S items pvm w).2 = w_trace w ++ t ∧
       Forall is_verify t ∧
       (t ≠ [] → notar_enabled S = true) ∧
       (Exists verification_failed t →
        ∃ e, (verify_loop E S items pvm w).1 = Raise e).
Proof.
  revert pvm w. induction items as [|[pkg_path pkg_info] items IH];
    intros pvm w; simpl.
  - exists []. rewrite app_nil_r. repeat split; [done..|].
    by intros ?%Exists_nil.
  - destruct (notar_enabled S) eqn:Hnotar; simpl; [|apply IH].
    destruct (truthy (pkg_cas_hash pkg_info)); [|apply IH].
    unfold bind, call_verify.
    destruct (verify_artifact E w pkg_path) as [e|[v|]] eqn:Hv; simpl.
    + eexists [_]. repeat split; [by repeat constructor|]. by exists e.
    + destruct (bool_decide (v ≠ "")) eqn:Hne.
      * apply bool_decide_eq_true in Hne.
        destruct (IH (dict_set pkg_path v pvm)
                    (log_event (EvVerify pkg_path (inr (Some v))) w))
          as (t & Htr & Hq & _ & Hfail).
        exists (EvVerify pkg_path (inr (Some v)) :: t).
        split; [rewrite Htr; simpl; by rewrite <- app_assoc|].
        split; [by constructor|]. split; [done|].
        intros [Hbad|Hex]%Exists_cons; [done|by apply Hfail].
      * eexists [_]. repeat split; [by repeat constructor|]. by eexists.
    + eexists [_]. repeat split; [by repeat constructor|]. by eexists.
Qed.

Lemma emits_sign_each Q (sign : string → M unit) paths :
  (∀ p, emits Q (sign p)) → emits Q (sign_each sign paths).
Proof.
  intros Hsign. induction paths as [|p paths IH]; simpl.
  - apply emits_ret.
  - apply emits_bind; [apply Hsign|]. by intros _.
Qed.

Lemma emits_sign_stage E S task pgp_keyid password rpms_dir debs_dir :
  emits is_signing (sign_stage E S task pgp_keyid password rpms_dir debs_dir).
Proof.
  unfold sign_stage. apply emits_bind; [|intros _; apply emits_bind].
  - intros w.
    destruct (sign_rpms_spec E pgp_keyid password (task_sign_files task)
                (files_sign_cert_path S) (glob rpms_dir ".rpm" w) w)
      as (t & Htr & Hev & _).
    exists t. split; [done|]. eapply Forall_impl; [exact Hev|].
    intros [] [? Heq]; by simpl in *.
  - intros w. apply emits_sign_each. intros p. apply emits_call_sign_deb.
  - intros _ w. apply emits_sign_each. intros p. apply emits_call_sign_dsc.
Qed.

Lemma emits_plan_first_seen Q S t h P : emits Q (plan_first_seen S t h P).
Proof.
  unfold plan_first_seen. apply emits_bind; [|intros; apply emits_ret].
  destruct (parallel_upload S); [|apply emits_ret].
  apply emits_bind; [apply emits_stat_size|intros; apply emits_ret].
Qed.

Lemma emits_plan_loop E S pvm downloaded st :
  emits is_notarize (plan_loop E S pvm downloaded st).
Proof.
  revert st. induction downloaded as [|t downloaded IH]; intros st; simpl.
  - apply emits_ret.
  - apply emits_bind; [|done]. destruct st as [P packages]. unfold plan_step.
    apply emits_bind.
    { destruct (dict_get (dl_path t) pvm); [|apply emits_ret].
      destruct (notar_enabled S); [|apply emits_ret].
      apply emits_bind; [apply emits_call_notarize|].
      intros. apply emits_update_package. }
    intros packages1. apply emits_bind; [apply emits_hash_file|].
    intros sha256. apply emits_bind.
    { destruct (bool_decide _); [apply emits_plan_first_seen|apply emits_ret]. }
    intros P1. apply emits_bind; [apply emits_update_package|].
    intros. apply emits_ret.
Qed.

Lemma emits_audit_stage Q E S P pgp_keyid : emits Q (audit_stage E S P pgp_keyid).
Proof.
  unfold audit_stage. apply emits_bind.
  - apply emits_silent. intros w. unfold _check_signature.
    by destruct (key_ids S !! pgp_keyid).
  - intros [|? ?]; [apply emits_ret|apply emits_raise].
Qed.

(** ** Upload invocations *)

Lemma uploads_app t1 t2 : uploads (t1 ++ t2) = uploads t1 ++ uploads t2.
Proof. unfold uploads. apply omap_app. Qed.

Lemma uploads_cons ev t a :
  uploaded_info ev = Some a → uploads (ev :: t) = a :: uploads t.
Proof. intros Hinfo. unfold uploads. simpl. by rewrite Hinfo. Qed.

Lemma trace_call_upload E task a w :
  ∃ ev, w_trace (call_upload E task a w).2 = w_trace w ++ [ev] ∧
        is_upload ev ∧ uploaded_info ev = Some a ∧
        w_files (call_upload E task a w).2 = w_files w.
Proof. unfold call_upload. eexists. repeat split. by destruct a. Qed.

Lemma run_uploads_cons E task a ts w :
  run_uploads E task (a :: ts) w =
  ((a, (call_upload E task a w).1) ::
     (run_uploads E task ts (call_upload E task a w).2).1,
   (run_uploads E task ts (call_upload E task a w).2).2).
Proof.
  simpl. by destruct (run_uploads _ _ _ _).
Qed.

Lemma trace_run_uploads E task ts w :
  ∃ t, w_trace (run_uploads E task ts w).2 = w_trace w ++ t ∧
       Forall is_upload t ∧ uploads t = ts ∧
       (run_uploads E task ts w).1.*1 = ts.
Proof.
  revert w. induction ts as [|a ts IH]; intros w.
  - exists []. simpl. by rewrite app_nil_r.
  - rewrite run_uploads_cons.
    destruct (trace_call_upload E task a w) as (ev & Htr & Hq & Hinfo & _).
    destruct (call_upload E task a w) as [r w1]. simpl in *.
    destruct (IH w1) as (t & Htr' & Hq' & Hups & Hfst).
    destruct (run_uploads E task ts w1) as [rs w2]. simpl in *.
    exists (ev :: t). split; [by rewrite Htr', Htr, <- app_assoc|].
    split; [by constructor|]. split.
    + by rewrite (uploads_cons _ _ a), Hups.
    + f_equal. exact Hfst.
Qed.

Lemma trace_upload_sequential E task ts packages hrefs w :
  ∃ t, w_trace (upload_sequential E task ts packages hrefs w).2 =
         w_trace w ++ t ∧
       Forall is_upload t ∧ uploads t `prefix_of` ts ∧
       (∀ r, (upload_sequential E task ts packages hrefs w).1 = Ok r →
             uploads t = ts).
Proof.
  revert packages hrefs w. induction ts as [|a ts IH];
    intros packages hrefs w; cbn [upload_sequential].
  - exists []. simpl. rewrite app_nil_r. by repeat split.
  - destruct (trace_call_upload E task a w) as (ev & Htr & Hq & Hinfo & _).
    assert (∀ t, uploads t `prefix_of` ts →
                 uploads (ev :: t) `prefix_of` a :: ts) as Hpre.
    { intros t Hp. rewrite (uploads_cons _ _ a) by done.
      by apply prefix_cons. }
    assert (∀ t, uploads t = ts → uploads (ev :: t) = a :: ts) as Heq.
    { intros t Hp. by rewrite (uploads_cons _ _ a), Hp. }
    destruct (call_upload E task a w) as [[e|[href|]] w1]; simpl in *.
    + exists [ev]. split; [done|]. split; [by constructor|].
      split; [|done]. apply (Hpre []). apply prefix_nil.
    + destruct (dict_get (dl_id a) packages) as [p|]; simpl.
      * destruct (IH (dict_set (dl_id a) (set_href href p) packages)
                    (<[dl_file_name a:=href]> hrefs) w1)
          as (t & Htr' & Hq' & Hp' & Hok).
        exists (ev :: t). split; [by rewrite Htr', Htr, <- app_assoc|].
        split; [by constructor|]. split; [by apply Hpre|].
        intros r Hr. apply Heq. by eapply Hok.
      * exists [ev]. split; [done|]. split; [by constructor|].
        split; [|done]. apply (Hpre []). apply prefix_nil.
    + destruct (IH packages hrefs w1) as (t & Htr' & Hq' & Hp' & Hok).
      exists (ev :: t). split; [by rewrite Htr', Htr, <- app_assoc|].
      split; [by constructor|]. split; [by apply Hpre|].
      intros r Hr. apply Heq. by eapply Hok.
Qed.

(** The upload stage invokes the upload collaborator for queued
    artifacts only, each at most once, and for every one of them when it
    completes. *)
Lemma trace_upload_stage E S task P packages w :
  let queued := parallel_upload_files P ++ sequential_upload_files P in
  ∃ t, w_trace (upload_stage E S task P packages w).2 = w_trace w ++ t ∧
       Forall is_upload t ∧
       uploads t ⊆+ dict_values queued ∧
       (∀ r, (upload_stage E S task P packages w).1 = Ok r →
             uploads t ≡ₚ dict_values queued).
Proof.
  intros queued. subst queued. unfold dict_values. rewrite fmap_app.
  unfold upload_stage, bind, upload_parallel.
  match goal with
  | |- context [run_uploads E task ?ts w] =>
      destruct (trace_run_uploads E task ts w) as (t1 & Htr1 & Hq1 & Hups1 & _);
      destruct (run_uploads E task ts w) as [rs w1]
  end.
  simpl in *.
  assert (uploads t1 ≡ₚ (parallel_upload_files P).*2) as Hperm1.
  { rewrite Hups1. apply schedule_Permutation. }
  destruct (collect_uploads rs packages ∅) as [[packages1 hrefs1]|e].
  - destruct (trace_upload_sequential E task
                (dict_values (sequential_upload_files P)) packages1 hrefs1 w1)
      as (t2 & Htr2 & Hq2 & Hpre2 & Hok2).
    destruct (upload_sequential E task _ packages1 hrefs1 w1)
      as [[[packages2 hrefs2]|e] w2]; simpl in *.
    + exists (t1 ++ t2).
      assert (w_trace w2 = w_trace w ++ t1 ++ t2) as Htr
        by (by rewrite Htr2, Htr1, app_assoc).
      assert (uploads (t1 ++ t2) ≡ₚ
              (parallel_upload_files P).*2 ++ (sequential_upload_files P).*2)
        as Hperm.
      { rewrite uploads_app, Hperm1. by rewrite (Hok2 _ eq_refl). }
      destruct (parallel_upload S); simpl;
        (split; [done|]; split; [by apply Forall_app|];
         split; [by apply Permutation_submseteq|done]).
    + exists (t1 ++ t2). split; [by rewrite Htr2, Htr1, app_assoc|].
      split; [by apply Forall_app|]. split; [|done].
      rewrite uploads_app. apply submseteq_app.
      * by apply Permutation_submseteq.
      * destruct Hpre2 as [k Hk]. unfold dict_values in Hk. rewrite Hk.
        by apply submseteq_inserts_r.
  - exists t1. simpl. split; [done|]. split; [done|]. split; [|done].
    apply submseteq_inserts_r. by apply Permutation_submseteq.
Qed.

Lemma emits_upload_stage E S task P packages :
  emits is_upload (upload_stage E S task P packages).
Proof.
  intros w. destruct (trace_upload_stage E S task P packages w)
    as (t & Htr & Hq & _).
  by exists t.
Qed.




Lemma queued_first_seen E S pvm l pk0 w P pk w' :
  plan_loop E S pvm l (empty_plan, pk0) w = (Ok (P, pk), w') →
  parallel_upload_files P ++ sequential_upload_files P ≡ₚ
  first_seen (w_files w) ∅ l.
Proof.
  intros (_ & _ & -> & -> & _)%plan_loop_empty_Ok.
  apply filter_app_complement.
Qed.

Lemma first_seen_digest fs seen l :
  Forall (λ ht, sha_of fs ht.2 = Some ht.1) (first_seen fs seen l).
Proof.
  apply Forall_forall. intros [h a] Hin.
  apply first_seen_first_occurrence in Hin as (_ & _ & _ & _ & Hsha & _).
  done.
Qed.


(** ** The trace of a task run *)

Lemma emits_sign_stage_batches E S task pgp_keyid password rpms_dir debs_dir :
  emits (λ ev, is_signing ev ∧ batch_ok ev)
    (sign_stage E S task pgp_keyid password rpms_dir debs_dir).
Proof.
  unfold sign_stage. apply emits_bind; [|intros _; apply emits_bind].
  - intros w.
    destruct (sign_rpms_spec E pgp_keyid password (task_sign_files task)
                (files_sign_cert_path S) (glob rpms_dir ".rpm" w) w)
      as (t & Htr & Hev & Hb & _).
    exists t. split; [done|].
    apply Forall_forall. intros ev Hin.
    rewrite Forall_forall in Hev. specialize (Hev ev Hin).
    destruct Hev as [b Hb'].
    split; [by destruct ev|].
    intros b' Hb''. rewrite Forall_forall in Hb. apply Hb.
    unfold rpm_batches. apply list_elem_of_omap. by exists ev.
  - intros w. apply emits_sign_each.
    intros p w'. unfold call_sign_deb.
    destruct (sign_deb_package E w' p pgp_keyid password);
      eexists [_]; (split; [done|]); by repeat constructor.
  - intros _ w. apply emits_sign_each.
    intros p w'. unfold call_sign_dsc.
    destruct (sign_dsc_package E w' p pgp_keyid password);
      eexists [_]; (split; [done|]); by repeat constructor.
Qed.

Ltac event_cases :=
  let ev := fresh "ev" in
  intros ev; destruct ev; unfold batch_ok; simpl; naive_solver.

(** The body of the task run never calls the reporter, signs RPMs in
    batches of at most fifty, and does not sign anything once a call of
    the verification collaborator has failed (which happens only with
    verification enabled). *)
Lemma pipeline_trace E S task pgp_keyid key rpms_dir debs_dir w r w' :
  pipeline E S task pgp_keyid key rpms_dir debs_dir w = (r, w') →
  ∃ t, w_trace w' = w_trace w ++ t ∧
       Forall (λ ev, ¬ is_report ev ∧ batch_ok ev) t ∧
       (Exists verification_failed t →
        notar_enabled S = true ∧
        Forall (λ ev, ¬ is_signing ev) t ∧ ∃ e, r = Raise e).
Proof.
  unfold pipeline. intros Hrun.
  destruct (emits_fetch_stage E task (key_fingerprint key) rpms_dir debs_dir w)
    as (t1 & Htr1 & Hq1).
  assert (Forall (λ ev, ¬ is_report ev ∧ batch_ok ev ∧ ¬ is_signing ev ∧
                        ¬ verification_failed ev) t1) as Hc1.
  { eapply Forall_impl; [exact Hq1|]. event_cases. }
  apply bind_inv in Hrun as [([[pim packages] downloaded] & w1 & Hfetch & Hrun)|
                             (e & Hfetch & ->)];
    rewrite Hfetch in Htr1; simpl in Htr1.
  2:{ exists t1. split; [done|]. split.
      - eapply Forall_impl; [exact Hc1|]. naive_solver.
      - intros Hex. exfalso. apply Exists_exists in Hex as (ev & Hin & Hbad).
        rewrite Forall_forall in Hc1. naive_solver. }
  destruct (trace_verify_loop E S pim [] w1)
    as (t2 & Htr2 & Hq2 & Hnotar & Hfail2).
  assert (Forall (λ ev, ¬ is_report ev ∧ batch_ok ev ∧ ¬ is_signing ev) t2)
    as Hc2.
  { eapply Forall_impl; [exact Hq2|]. event_cases. }
  apply bind_inv in Hrun as [(pvm & w2 & Hverify & Hrun)|(e & Hverify & ->)];
    rewrite Hverify in Htr2, Hfail2; simpl in Htr2, Hfail2.
  2:{ exists (t1 ++ t2). split; [by rewrite Htr2, Htr1, app_assoc|]. split.
      - apply Forall_app. split; (eapply Forall_impl; [eassumption|]);
          naive_solver.
      - intros Hex. split; [|split; [|by eexists]].
        + apply Hnotar. intros ->. rewrite app_nil_r in Hex.
          apply Exists_exists in Hex as (ev & Hin & Hbad).
          rewrite Forall_forall in Hc1. naive_solver.
        + apply Forall_app. split; (eapply Forall_impl; [eassumption|]);
            naive_solver. }
  assert (¬ Exists verification_failed t2) as Hpass.
  { intros Hex. by destruct (Hfail2 Hex). }
  match type of Hrun with
  | ?m w2 = _ =>
      assert (emits (λ ev, ¬ is_report ev ∧ batch_ok ev ∧
                           ¬ verification_failed ev) m) as Htail
  end.
  { apply emits_bind.
    { eapply emits_impl; [|apply emits_sign_stage_batches]. event_cases. }
    intros _. apply emits_bind.
    { eapply emits_impl; [|apply emits_plan_loop]. event_cases. }
    intros [P packages1]. apply emits_bind; [apply emits_audit_stage|].
    intros _. apply emits_bind; [|intros; apply emits_ret].
    eapply emits_impl; [|apply emits_upload_stage]. event_cases. }
  destruct (Htail w2) as (t3 & Htr3 & Hq3). rewrite Hrun in Htr3.
  simpl in Htr3.
  exists (t1 ++ t2 ++ t3).
  split; [by rewrite Htr3, Htr2, Htr1, !app_assoc|]. split.
  - rewrite !Forall_app. repeat split;
      (eapply Forall_impl; [eassumption|]); naive_solver.
  - intros Hex. exfalso.
    rewrite !Exists_app in Hex. destruct Hex as [Hex|[Hex|Hex]]; [|done|].
    + apply Exists_exists in Hex as (ev & Hin & Hbad).
      rewrite Forall_forall in Hc1. naive_solver.
    + apply Exists_exists in Hex as (ev & Hin & Hbad).
      rewrite Forall_forall in Hq3. naive_solver.
Qed.

Lemma path_exists_rmtree d w : path_exists d (rmtree d w).2 = false.
Proof.
  unfold path_exists, rmtree. simpl. apply bool_decide_eq_false.
  intros (p & Hin & Hunder).
  apply elem_of_union in Hin as [Hin|Hin].
  - apply elem_of_filter in Hin as [Hno _]. done.
  - apply elem_of_dom in Hin as [f Hf].
    apply map_lookup_filter_Some in Hf as [_ Hno]. done.
Qed.

(** How a task run ends, once the key of the task is known. *)
Lemma finally_block_spec E task task_dir payload w :
  let run := finally_block E task task_dir payload w in
  ∃ res, w_trace run.2 = w_trace w ++ [EvReport (task_id task) payload res] ∧
         match res with
         | None => run.1 = Returned ∧ path_exists task_dir run.2 = false
         | Some e =>
             run = (Escaped e, log_event (EvReport (task_id task) payload res) w)
         end.
Proof.
  intros run. subst run. unfold finally_block, call_report.
  destruct (report_signed_build E w (task_id task) payload) as [e|] eqn:Hres.
  - by exists (Some e).
  - exists None.
    destruct (path_exists task_dir _) eqn:Hex; simpl.
    + split; [done|]. split; [done|]. apply path_exists_rmtree.
    + by repeat split.
Qed.

Lemma _sign_build_unfold E S task pgp_keyid key w :
  task_pgp_key task = Some pgp_keyid → pgp_keyid ≠ "" →
  key_ids S !! pgp_keyid = Some key →
  let task_dir := task_dir_of S task in
  let body := pipeline E S task pgp_keyid key (os_path_join task_dir ["rpms"])
                (os_path_join task_dir ["debs"]) w in
  _sign_build E S task w =
  finally_block E task task_dir (final_payload task body.1) body.2.
Proof.
  intros Hk Hne Hkey. unfold _sign_build. rewrite Hk.
  rewrite bool_decide_eq_false_2 by done. rewrite Hkey. simpl.
  by destruct (pipeline _ _ _ _ _ _ _ _).
Qed.

Lemma _sign_build_no_key E S task w :
  (∀ pgp_keyid, task_pgp_key task = Some pgp_keyid → pgp_keyid ≠ "" →
                key_ids S !! pgp_keyid = None) →
  ∃ e, _sign_build E S task w = (Escaped e, w).
Proof.
  intros Hno. unfold _sign_build.
  destruct (task_pgp_key task) as [k|]; [|by eexists].
  destruct (bool_decide (k = "")) eqn:Hk; [by eexists|].
  apply bool_decide_eq_false in Hk. rewrite (Hno k eq_refl Hk). by eexists.
Qed.

(** ** Reporting and cleanup *)

Lemma reports_app t1 t2 : reports (t1 ++ t2) = reports t1 ++ reports t2.
Proof. unfold reports. apply omap_app. Qed.

Lemma reports_none t : Forall (λ ev, ¬ is_report ev) t → reports t = [].
Proof.
  induction 1 as [|ev t Hev _ IH]; [done|].
  unfold reports in *. destruct ev; simpl in *; done.
Qed.

(** C2 (as amended). When the task names a key that the key ring knows,
    every error raised by a stage is caught inside the task run: the
    reporter is invoked exactly once, with a payload that has
    [success = false] and the error as [error_message] when the body
    raised, and the only error that can leave the run is one raised by
    the reporter itself. *)
Theorem stage_errors_are_reported
    (E : env) (S : signer) (task : sign_task) (w : world)
    (pgp_keyid : string) (key : key_entry) :
  task_pgp_key task = Some pgp_keyid → pgp_keyid ≠ "" →
  key_ids S !! pgp_keyid = Some key →
  let task_dir := task_dir_of S task in
  let body := pipeline E S task pgp_keyid key (os_path_join task_dir ["rpms"])
                (os_path_join task_dir ["debs"]) w in
  let run := _sign_build E S task w in
  let payload := final_payload task body.1 in
  ∃ t res,
    w_trace run.2 = w_trace w ++ t ∧
    reports t = [payload] ∧
    last t = Some (EvReport (task_id task) payload res) ∧
    (∀ e, body.1 = Raise e →
          rp_success payload = false ∧ rp_error_message payload = Some e) ∧
    (res = None → run.1 = Returned) ∧
    (∀ e, run.1 = Escaped e → res = Some e).
Proof.
  intros Hk Hne Hkey task_dir body run payload.
  subst run. rewrite (_sign_build_unfold E S task pgp_keyid key w) by done.
  fold task_dir body payload.
  destruct (pipeline_trace E S task pgp_keyid key
              (os_path_join task_dir ["rpms"]) (os_path_join task_dir ["debs"])
              w body.1 body.2)
    as (t0 & Htr0 & Hq0 & _); [apply surjective_pairing|].
  destruct (finally_block_spec E task task_dir payload body.2)
    as (res & Htr & Hres).
  exists (t0 ++ [EvReport (task_id task) payload res]), res.
  split; [by rewrite Htr, Htr0, app_assoc|].
  split.
  { rewrite reports_app, reports_none; [done|].
    eapply Forall_impl; [exact Hq0|]. naive_solver. }
  split; [by rewrite last_snoc|].
  split.
  { intros e He. subst payload. by rewrite He. }
  destruct res as [e|].
  - rewrite Hres. simpl. split; [done|]. by intros e' [= ->].
  - destruct Hres as [-> _]. by split.
Qed.

(** C3 (as amended). When the task run returns, the staging directory of
    the task does not exist. *)
Theorem staging_directory_removed_on_return
    (E : env) (S : signer) (task : sign_task) (w : world) :
  (_sign_build E S task w).1 = Returned →
  path_exists (task_dir_of S task) (_sign_build E S task w).2 = false.
Proof.
  intros Hret.
  destruct (task_pgp_key task) as [k|] eqn:Hk.
  2:{ unfold _sign_build in Hret. by rewrite Hk in Hret. }
  destruct (decide (k = "")) as [->|Hne].
  { unfold _sign_build in Hret. by rewrite Hk in Hret. }
  destruct (key_ids S !! k) as [key|] eqn:Hkey.
  2:{ unfold _sign_build in Hret. rewrite Hk in Hret.
      rewrite bool_decide_eq_false_2 in Hret by done.
      by rewrite Hkey in Hret. }
  rewrite (_sign_build_unfold E S task k key w) in * by done.
  match goal with
  | |- context [finally_block E task ?d ?p ?w0] =>
      destruct (finally_block_spec E task d p w0) as (res & _ & Hres)
  end.
  destruct res as [e|]; [|by destruct Hres].
  by rewrite Hres in Hret.
Qed.

(** C7. When a call of the verification collaborator fails during a
    task run (it raises or returns nothing; such calls are made only
    with verification enabled), the run makes no signing invocation at
    all and ends by reporting a payload with [success = false] and an
    error message. *)
Theorem verification_failure_prevents_signing
    (E : env) (S : signer) (task : sign_task) (w : world) (t : list event) :
  w_trace (_sign_build E S task w).2 = w_trace w ++ t →
  Exists verification_failed t →
  notar_enabled S = true ∧
  Forall (λ ev, ¬ is_signing ev) t ∧
  ∃ payload res,
    last t = Some (EvReport (task_id task) payload res) ∧
    reports t = [payload] ∧
    rp_success payload = false ∧ is_Some (rp_error_message payload).
Proof.
  intros Htr Hex.
  destruct (task_pgp_key task) as [k|] eqn:Hk.
  2:{ exfalso. unfold _sign_build in Htr. rewrite Hk in Htr. simpl in Htr.
      rewrite <- (app_nil_r (w_trace w)) in Htr at 1.
      apply app_inv_head in Htr. subst t. by apply Exists_nil in Hex. }
  destruct (decide (k = "")) as [->|Hne].
  { exfalso. unfold _sign_build in Htr. rewrite Hk in Htr. simpl in Htr.
    rewrite <- (app_nil_r (w_trace w)) in Htr at 1.
    apply app_inv_head in Htr. subst t. by apply Exists_nil in Hex. }
  destruct (key_ids S !! k) as [key|] eqn:Hkey.
  2:{ exfalso. unfold _sign_build in Htr. rewrite Hk in Htr.
      rewrite bool_decide_eq_false_2 in Htr by done.
      rewrite Hkey in Htr. simpl in Htr.
      rewrite <- (app_nil_r (w_trace w)) in Htr at 1.
      apply app_inv_head in Htr. subst t. by apply Exists_nil in Hex. }
  rewrite (_sign_build_unfold E S task k key w) in Htr by done.
  set (task_dir := task_dir_of S task) in *.
  set (body := pipeline E S task k key (os_path_join task_dir ["rpms"])
                 (os_path_join task_dir ["debs"]) w) in *.
  destruct (pipeline_trace E S task k key
              (os_path_join task_dir ["rpms"]) (os_path_join task_dir ["debs"])
              w body.1 body.2)
    as (t0 & Htr0 & Hq0 & Hfail); [apply surjective_pairing|].
  destruct (finally_block_spec E task task_dir (final_payload task body.1) body.2)
    as (res & Htr1 & _).
  rewrite Htr1, Htr0, <- app_assoc in Htr. apply app_inv_head in Htr.
  subst t. apply Exists_app in Hex as [Hex|Hex].
  2:{ exfalso. apply Exists_cons in Hex as [Hbad|Hnil]; [done|].
      by apply Exists_nil in Hnil. }
  destruct (Hfail Hex) as (Hnotar & Hnosign & e & He).
  split; [done|]. split.
  { apply Forall_app. split; [done|]. constructor; [|constructor].
    by intros ?. }
  exists (final_payload task body.1), res.
  split; [by rewrite last_snoc|]. split.
  { rewrite reports_app, reports_none; [done|].
    eapply Forall_impl; [exact Hq0|]. naive_solver. }
  rewrite He. simpl. split; [done|]. by eexists.
Qed.

(** ** Locations of the uploaded packages *)

Lemma same_but_href_refl pk : same_but_href pk pk.
Proof. split; [done|]. intros id p Hp. by exists p. Qed.

Lemma same_but_href_set pk1 pk id p href :
  same_but_href pk1 pk → dict_get id pk = Some p →
  same_but_href pk1 (dict_set id (set_href href p) pk).
Proof.
  intros [Hkeys Hsame] Hp. split.
  - rewrite dict_keys_set_present; [done|].
    apply dict_get_is_Some. by eexists.
  - intros id' p' Hp'. destruct (decide (id = id')) as [<-|Hne].
    + rewrite dict_get_set_eq in Hp'. injection Hp' as <-.
      destruct (Hsame id p Hp) as (p0 & Hp0 & Hpkg & Hsha). by exists p0.
    + rewrite dict_get_set_ne in Hp' by done. by apply Hsame.
Qed.

Lemma upload_inv_step pk1 pk hrefs ups a href p k :
  upload_inv pk1 pk hrefs ups →
  dict_get (dl_id a) pk = Some p →
  (∀ p1, dict_get (dl_id a) pk1 = Some p1 → sp_pkg p = sp_pkg p1 → k ∈ names p1) →
  upload_inv pk1 (dict_set (dl_id a) (set_href href p) pk)
    (<[k := href]> hrefs) (ups ++ [(a, href)]).
Proof.
  intros (Hsame & Hentries & Hnames) Hp Hk.
  split; [by apply same_but_href_set|]. split.
  - intros id p' h Hp' Hh. destruct (decide (dl_id a = id)) as [<-|Hne].
    + rewrite dict_get_set_eq in Hp'. injection Hp' as <-.
      simpl in Hh. injection Hh as <-. exists a. split; [|done].
      apply elem_of_app. right. left.
    + rewrite dict_get_set_ne in Hp' by done.
      destruct (Hentries id p' h Hp' Hh) as (a' & Hin & Hid).
      exists a'. split; [|done]. apply elem_of_app. by left.
  - intros k' h Hh. destruct (decide (k = k')) as [<-|Hne].
    + rewrite lookup_insert_eq in Hh. injection Hh as <-.
      destruct Hsame as [_ Hsame].
      destruct (Hsame (dl_id a) p Hp) as (p1 & Hp1 & Hpkg & _).
      exists a, p1. split; [apply elem_of_app; right; left|].
      split; [done|]. by apply Hk.
    + rewrite lookup_insert_ne in Hh by done.
      destruct (Hnames k' h Hh) as (a' & p' & Hin & Hp' & Hk').
      exists a', p'. split; [apply elem_of_app; by left|done].
Qed.

Lemma collect_uploads_inv pk1 rs pk hrefs ups pk' hrefs' :
  collect_uploads rs pk hrefs = Ok (pk', hrefs') →
  upload_inv pk1 pk hrefs ups →
  ∃ new, new.*1 = rs.*1 ∧ upload_inv pk1 pk' hrefs' (ups ++ new).
Proof.
  revert pk hrefs ups. induction rs as [|[a [e|[href|]]] rs IH];
    intros pk hrefs ups Hrun Hinv; simpl in Hrun.
  - injection Hrun as <- <-. exists []. by rewrite app_nil_r.
  - done.
  - destruct (dict_get (dl_id a) pk) as [p|] eqn:Hp; [|done].
    apply (IH _ _ (ups ++ [(a, href)])) in Hrun as (new & Hfst & Hinv').
    + exists ((a, href) :: new).
      split; [rewrite !fmap_cons; cbn [fst]; by f_equal|].
      by rewrite <- app_assoc in Hinv'.
    + apply upload_inv_step; [done..|].
      intros p1 _ ->. left.
  - by destruct (dict_get (dl_id a) pk).
Qed.

Lemma upload_sequential_inv E task pk1 ts pk hrefs ups w pk' hrefs' w' :
  upload_sequential E task ts pk hrefs w = (Ok (pk', hrefs'), w') →
  upload_inv pk1 pk hrefs ups →
  Forall (λ a, ∀ p1, dict_get (dl_id a) pk1 = Some p1 →
                     dl_file_name a = package_file_name (sp_pkg p1)) ts →
  ∃ new, new.*1 `sublist_of` ts ∧ upload_inv pk1 pk' hrefs' (ups ++ new).
Proof.
  revert pk hrefs ups w. induction ts as [|a ts IH];
    intros pk hrefs ups w Hrun Hinv Hts; cbn [upload_sequential] in Hrun.
  - injection Hrun as <- <- <-. exists []. by rewrite app_nil_r.
  - apply Forall_cons in Hts as [Ha Hts].
    destruct (call_upload E task a w) as [[e|[href|]] w1]; [done| |].
    + destruct (dict_get (dl_id a) pk) as [p|] eqn:Hp; [|done].
      apply (IH _ _ (ups ++ [(a, href)])) in Hrun as (new & Hsub & Hinv');
        [|by apply upload_inv_step;
           [done..|intros p1 Hp1 _; rewrite (Ha p1 Hp1); right; left]|done].
      exists ((a, href) :: new).
      split; [rewrite fmap_cons; cbn [fst]; by constructor|].
      by rewrite <- app_assoc in Hinv'.
    + apply (IH _ _ ups) in Hrun as (new & Hsub & Hinv'); [|done..].
      exists new. split; [by constructor|done].
Qed.

Lemma fill_hrefs_Ok hrefs pk r :
  fill_hrefs hrefs pk = Ok r →
  dict_keys r = dict_keys pk ∧
  ∀ id p', dict_get id r = Some p' →
    ∃ p, dict_get id pk = Some p ∧ sp_pkg p' = sp_pkg p ∧
         sp_sha256 p' = sp_sha256 p ∧
         ((truthy (sp_href p) = true ∧ sp_href p' = sp_href p) ∨
          (∃ h, hrefs !! pkg_name (sp_pkg p) = Some h ∧ sp_href p' = Some h)).
Proof.
  revert r. induction pk as [|[id0 p0] pk IH]; intros r Hrun; simpl in Hrun.
  - injection Hrun as <-. split; [done|]. by intros id p' Hp'.
  - destruct (truthy (sp_href p0)) eqn:Htruthy.
    + destruct (fill_hrefs hrefs pk) as [rest|e]; [|done].
      injection Hrun as <-. destruct (IH rest eq_refl) as [Hkeys Hrest].
      split; [unfold dict_keys in *; rewrite !fmap_cons; by f_equal|].
      intros id p' Hp'. simpl in *.
      destruct (decide (id = id0)); [|by apply Hrest].
      injection Hp' as <-. exists p0. repeat split. by left.
    + destruct (hrefs !! pkg_name (sp_pkg p0)) as [h|] eqn:Hh; [|done].
      destruct (fill_hrefs hrefs pk) as [rest|e]; [|done].
      injection Hrun as <-. destruct (IH rest eq_refl) as [Hkeys Hrest].
      split; [unfold dict_keys in *; rewrite !fmap_cons; by f_equal|].
      intros id p' Hp'. simpl in *.
      destruct (decide (id = id0)); [|by apply Hrest].
      injection Hp' as <-. exists p0. repeat split. right. by exists h.
Qed.

Lemma elem_of_dict_values {K V} (d : list (K * V)) v :
  v ∈ dict_values d ↔ ∃ k, (k, v) ∈ d.
Proof.
  unfold dict_values. rewrite list_elem_of_fmap. split.
  - intros ([k v'] & -> & Hin). by exists k.
  - intros [k Hin]. by exists (k, v).
Qed.

Lemma submseteq_NoDup {A} (l k : list A) : l ⊆+ k → NoDup k → NoDup l.
Proof.
  induction 1 as [|x l1 l2 Hsub IH|x y l|x l1 l2 _ IH|l1 l2 l3 _ IH1 _ IH2].
  - done.
  - intros [Hx Hnd]%NoDup_cons. constructor; [|by apply IH].
    intros Hin. apply Hx. by eapply elem_of_submseteq.
  - intros Hnd. eapply NoDup_Permutation_proper; [|exact Hnd]. apply perm_swap.
  - intros [_ Hnd]%NoDup_cons. by apply IH.
  - auto.
Qed.

Lemma NoDup_values_of_digest fs (queued : list (string * dl_info)) :
  NoDup (dict_keys queued) →
  Forall (λ ht, sha_of fs ht.2 = Some ht.1) queued →
  NoDup (dict_values queued).
Proof.
  unfold dict_keys, dict_values.
  induction queued as [|[h a] queued IH]; intros Hnd Hsha; [constructor|].
  rewrite fmap_cons in *. cbn [fst snd] in *.
  apply NoDup_cons in Hnd as [Hh Hnd]. apply Forall_cons in Hsha as [Ha Hsha].
  constructor; [|by apply IH].
  intros ([h' a'] & -> & Hin)%list_elem_of_fmap. simpl in *.
  rewrite Forall_forall in Hsha. specialize (Hsha _ Hin). simpl in Hsha.
  apply Hh. apply list_elem_of_fmap. exists (h', a'). split; [|done].
  simpl. congruence.
Qed.

(** With parallel upload enabled, when names determine content, the
    entries that record the same digest end with the same location. *)
Lemma upload_stage_same_href E S task P pk1 w r w' fs :
  parallel_upload S = true →
  upload_stage E S task P pk1 w = (Ok r, w') →
  let queued := parallel_upload_files P ++ sequential_upload_files P in
  NoDup (dict_keys queued) →
  Forall (λ ht, sha_of fs ht.2 = Some ht.1) queued →
  Forall (λ ht, ∃ p1, dict_get (dl_id ht.2) pk1 = Some p1 ∧
                      sp_sha256 p1 = Some ht.1 ∧
                      dl_file_name ht.2 = package_file_name (sp_pkg p1)) queued →
  (∀ id p, dict_get id pk1 = Some p → sp_href p = None) →
  (∀ p q, p ∈ dict_values r → q ∈ dict_values r →
          share_name p q → sp_sha256 p = sp_sha256 q) →
  dict_keys r = dict_keys pk1 ∧
  ∀ id1 id2 p q, dict_get id1 r = Some p → dict_get id2 r = Some q →
                 sp_sha256 p = sp_sha256 q →
                 sp_href p = sp_href q ∧ is_Some (sp_href p).
Proof.
  intros Hpar Hrun queued Hnd Hsha Hentry Hnohref Hnames_r.
  unfold upload_stage in Hrun. rewrite Hpar in Hrun.
  apply bind_Ok_inv in Hrun as ([pkA hrefsA] & wA & HrunA & Hrun).
  apply bind_Ok_inv in Hrun as ([pkB hrefsB] & wB & HrunB & Hfill).
  unfold lift in Hfill. injection Hfill as Hfill <-.
  (* the parallel uploads *)
  unfold upload_parallel in HrunA.
  match type of HrunA with
  | context [run_uploads E task ?ts w] =>
      destruct (trace_run_uploads E task ts w) as (_ & _ & _ & _ & Hfst);
      destruct (run_uploads E task ts w) as [rs wA']
  end.
  simpl in Hfst. injection HrunA as HcolA <-.
  assert (upload_inv pk1 pk1 ∅ []) as Hinv0.
  { split; [apply same_but_href_refl|]. split.
    - intros id p h Hp Hh. by rewrite (Hnohref id p Hp) in Hh.
    - intros k h Hh. by rewrite lookup_empty in Hh. }
  destruct (collect_uploads_inv pk1 rs pk1 ∅ [] pkA hrefsA HcolA Hinv0)
    as (newA & HfstA & HinvA).
  simpl in HinvA.
  (* the sequential uploads *)
  assert (Forall (λ a, ∀ p1, dict_get (dl_id a) pk1 = Some p1 →
                             dl_file_name a = package_file_name (sp_pkg p1))
            (dict_values (sequential_upload_files P))) as Hseq.
  { apply Forall_forall. intros a [h Hin]%elem_of_dict_values p1 Hp1.
    rewrite Forall_forall in Hentry.
    destruct (Hentry (h, a)) as (p1' & Hp1' & _ & Hfn).
    { apply elem_of_app. by right. }
    simpl in *. congruence. }
  destruct (upload_sequential_inv E task pk1 _ pkA hrefsA newA _ pkB hrefsB wB
              HrunB HinvA Hseq) as (newB & HsubB & HinvB).
  set (ups := newA ++ newB) in *.
  assert (ups.*1 ⊆+ dict_values queued) as Hups.
  { subst ups queued. unfold dict_values in *. rewrite !fmap_app.
    apply submseteq_app.
    - rewrite HfstA, Hfst. apply Permutation_submseteq, schedule_Permutation.
    - by apply sublist_submseteq. }
  assert (NoDup ups.*1) as Hups_nd.
  { eapply submseteq_NoDup; [exact Hups|].
    by eapply NoDup_values_of_digest. }
  destruct HinvB as (HsameB & HentriesB & HnamesB).
  destruct (fill_hrefs_Ok hrefsB pkB r Hfill) as [Hkeys Hfilled].
  split; [rewrite Hkeys; apply HsameB|].
  assert (∀ id1 id2 p q, dict_get id1 pk1 = Some p → dict_get id2 pk1 = Some q →
                         share_name p q → sp_sha256 p = sp_sha256 q) as Hnames.
  { assert (∀ id p, dict_get id pk1 = Some p →
              ∃ p', p' ∈ dict_values r ∧ sp_pkg p' = sp_pkg p ∧
                    sp_sha256 p' = sp_sha256 p) as Hfwd.
    { intros id p Hp.
      assert (is_Some (dict_get id r)) as [p' Hp'].
      { apply dict_get_is_Some. rewrite Hkeys.
        destruct HsameB as [-> _]. apply dict_get_is_Some. by eexists. }
      destruct (Hfilled id p' Hp') as (pB & HpB & Hpkg & Hsha' & _).
      destruct HsameB as [_ HsameB].
      destruct (HsameB id pB HpB) as (p1 & Hp1 & Hpkg1 & Hsha1).
      rewrite Hp in Hp1. injection Hp1 as <-.
      exists p'. split; [|split; congruence].
      apply elem_of_dict_values. exists id. by apply dict_get_Some_elem. }
    intros id1 id2 p q Hp Hq (n & Hn1 & Hn2).
    destruct (Hfwd id1 p Hp) as (p' & Hinp & Hpkgp & <-).
    destruct (Hfwd id2 q Hq) as (q' & Hinq & Hpkgq & <-).
    apply Hnames_r; [done..|]. exists n. unfold names in *.
    by rewrite Hpkgp, Hpkgq. }
  (* what a final entry records *)
  assert (∀ id p', dict_get id r = Some p' →
            ∃ a h ha, sp_href p' = Some h ∧ (a, h) ∈ ups ∧ (ha, a) ∈ queued ∧
                      sp_sha256 p' = Some ha) as Hfinal.
  { intros id p' Hp'.
    destruct (Hfilled id p' Hp') as (p & Hp & Hpkg & Hsha' & Hcase).
    destruct HsameB as [_ HsameB].
    destruct (HsameB id p Hp) as (p1 & Hp1 & Hpkg1 & Hsha1).
    assert (∀ a h, (a, h) ∈ ups →
              ∃ ha pa, (ha, a) ∈ queued ∧ dict_get (dl_id a) pk1 = Some pa ∧
                       sp_sha256 pa = Some ha) as Hup.
    { intros a h Hin.
      assert (a ∈ dict_values queued) as [ha Hq]%elem_of_dict_values.
      { eapply elem_of_submseteq; [|exact Hups].
        apply list_elem_of_fmap. by exists (a, h). }
      rewrite Forall_forall in Hentry.
      destruct (Hentry (ha, a) Hq) as (pa & Hpa & Hsha_a & _).
      by exists ha, pa. }
    destruct Hcase as [[Htruthy Hhref]|(h & Hh & Hhref)].
    - destruct (sp_href p) as [h|] eqn:Hh; [|done].
      destruct (HentriesB id p h Hp Hh) as (a & Hin & Hid).
      destruct (Hup a h Hin) as (ha & pa & Hq & Hpa & Hsha_a).
      exists a, h, ha. split; [congruence|]. split; [done|]. split; [done|].
      rewrite Hid, Hp1 in Hpa. injection Hpa as <-. congruence.
    - destruct (HnamesB _ h Hh) as (a & pa & Hin & Hpa & Hk).
      destruct (Hup a h Hin) as (ha & pa' & Hq & Hpa' & Hsha_a).
      rewrite Hpa in Hpa'. injection Hpa' as <-.
      exists a, h, ha. split; [done|]. split; [done|]. split; [done|].
      rewrite Hsha', Hsha1, <- Hsha_a.
      apply (Hnames id (dl_id a)); [done..|].
      exists (pkg_name (sp_pkg p)). split; [|done].
      rewrite Hpkg1. left. }
  intros id1 id2 p q Hp Hq Heq.
  destruct (Hfinal id1 p Hp) as (a & h & ha & Hhp & Hin & Hqa & Hsp).
  destruct (Hfinal id2 q Hq) as (a' & h' & ha' & Hhq & Hin' & Hqa' & Hsq).
  rewrite Hhp, Hhq. split; [|by eexists].
  assert (ha' = ha) as -> by congruence.
  apply (dict_get_elem_NoDup _ _ _ Hnd) in Hqa, Hqa'.
  assert (a' = a) as -> by congruence.
  apply (dict_get_elem_NoDup _ _ _ Hups_nd) in Hin, Hin'. congruence.
Qed.

(** ** What the earlier stages leave in [packages] *)

Lemma plan_loop_packages E S pvm l P0 pk0 w P pk w' :
  plan_loop E S pvm l (P0, pk0) w = (Ok (P, pk), w') →
  dict_keys pk = dict_keys pk0 ∧
  (∀ id p, dict_get id pk = Some p →
           ∃ p0, dict_get id pk0 = Some p0 ∧ sp_pkg p = sp_pkg p0 ∧
                 sp_href p = sp_href p0) ∧
  (NoDup (dl_id <$> l) →
   (∀ id, id ∉ dl_id <$> l → dict_get id pk = dict_get id pk0) ∧
   ∀ a, a ∈ l → ∃ p, dict_get (dl_id a) pk = Some p ∧
                     sp_sha256 p = sha_of (w_files w) a).
Proof.
  revert P0 pk0 w. induction l as [|a l IH]; intros P0 pk0 w; simpl.
  - intros [= <- <- <-]. split; [done|]. split; [by eauto|].
    intros _. split; [done|]. intros a Hin. by apply elem_of_nil in Hin.
  - intros ([P1 pk1] & w1 & Hstep & Hloop)%bind_Ok_inv.
    apply plan_step_Ok in Hstep
      as (f & Hf & Hfs & _ & Hkeys1 & Hother1 & p0 & p1 & Hp0 & Hp1 & Hpkg1 &
          Hhref1 & Hsha1).
    apply IH in Hloop as (Hkeys & Hgen & Hnodup).
    split; [congruence|]. split.
    + intros id p Hp. destruct (Hgen id p Hp) as (p' & Hp' & Hpkg & Hhref).
      destruct (decide (id = dl_id a)) as [->|Hne].
      * rewrite Hp1 in Hp'. injection Hp' as <-. exists p0.
        split; [done|]. split; congruence.
      * rewrite Hother1 in Hp' by done. by exists p'.
    + intros [Ha Hnd]%NoDup_cons. destruct (Hnodup Hnd) as [Hother Hin].
      split.
      * intros id [Hne Hid]%not_elem_of_cons.
        rewrite Hother by done. by apply Hother1.
      * intros a' [->|Ha']%elem_of_cons.
        -- exists p1. rewrite Hother by done. split; [done|].
           unfold sha_of. by rewrite Hf.
        -- destruct (Hin a' Ha') as (p & Hp & Hsha).
           exists p. split; [done|]. by rewrite Hsha, Hfs.
Qed.

Lemma download_package_Ok E rpms_dir debs_dir pkg platform w r w' :
  download_package E rpms_dir debs_dir pkg platform w = (Ok r, w') →
  r.1 = pkg ∧ dl_id r.2 = pkg_id pkg ∧
  dl_file_name r.2 = package_file_name pkg.
Proof.
  unfold download_package.
  intros (path & w1 & _ & Hret)%bind_Ok_inv. by injection Hret as <- <-.
Qed.

Lemma run_downloads_results E rpms_dir debs_dir jobs pim w :
  Forall2 (λ job r, match r with
                    | Ok (pkg, info) =>
                        pkg = job.1 ∧ dl_id info = pkg_id pkg ∧
                        dl_file_name info = package_file_name pkg
                    | Raise _ => True
                    end)
    jobs (run_downloads E rpms_dir debs_dir jobs pim w).1.1.
Proof.
  revert pim w. induction jobs as [|[pkg platform] jobs IH]; intros pim w.
  - constructor.
  - simpl.
    destruct (download_package E rpms_dir debs_dir pkg platform w)
      as [[r|e] w1] eqn:Hdl.
    + apply download_package_Ok in Hdl as (Hpkg & Hid & Hfn).
      specialize (IH (dict_set (dl_path r.2) pkg pim) w1).
      destruct (run_downloads E rpms_dir debs_dir jobs _ w1) as [[rs pim'] w2].
      simpl in *. constructor; [|done]. destruct r as [pkg' info].
      simpl in *. by subst.
    + specialize (IH pim w1).
      destruct (run_downloads E rpms_dir debs_dir jobs _ w1) as [[rs pim'] w2].
      simpl in *. by constructor.
Qed.

Lemma collect_downloads_Ok fingerprint rs pk0 dl0 pk dl :
  collect_downloads fingerprint rs pk0 dl0 = Ok (pk, dl) →
  ∃ oks, rs = Ok <$> oks ∧ dl = dl0 ++ oks.*2 ∧
         (∀ id p, dict_get id pk = Some p →
                  dict_get id pk0 = Some p ∨
                  ∃ r, r ∈ oks ∧ id = pkg_id r.1 ∧
                       p = make_signed_package r.1 fingerprint) ∧
         (∀ id, id ∉ (pkg_id ∘ fst) <$> oks →
                dict_get id pk = dict_get id pk0) ∧
         (NoDup ((pkg_id ∘ fst) <$> oks) →
          ∀ r, r ∈ oks →
               dict_get (pkg_id r.1) pk =
                 Some (make_signed_package r.1 fingerprint)).
Proof.
  revert pk0 dl0. induction rs as [|[[pkg info]|e] rs IH]; intros pk0 dl0;
    simpl; [| |done].
  - intros [= <- <-]. exists []. rewrite app_nil_r. split; [done|].
    split; [done|]. split; [by eauto|]. split; [done|].
    intros _ r Hin. by apply elem_of_nil in Hin.
  - intros (oks & -> & -> & Hgen & Hother & Hnd)%IH.
    exists ((pkg, info) :: oks). split; [done|].
    split; [by rewrite <- app_assoc|]. split; [|split].
    + intros id p Hp. destruct (Hgen id p Hp) as [Hp0|(r & Hin & -> & ->)].
      * destruct (decide (pkg_id pkg = id)) as [<-|Hne].
        -- rewrite dict_get_set_eq in Hp0. injection Hp0 as <-.
           right. exists (pkg, info). by split; [left|].
        -- rewrite dict_get_set_ne in Hp0 by done. by left.
      * right. exists r. by split; [right|].
    + rewrite fmap_cons. intros id [Hne Hid]%not_elem_of_cons.
      rewrite Hother by done. simpl in Hne. by rewrite dict_get_set_ne.
    + rewrite fmap_cons. intros [Hpkg Hnd']%NoDup_cons r [->|Hin]%elem_of_cons.
      * simpl in *. rewrite Hother by done. apply dict_get_set_eq.
      * by apply Hnd.
Qed.

Lemma dict_set_NoDup {K V} `{EqDecision K} (k : K) (v : V) d :
  NoDup (dict_keys d) → NoDup (dict_keys (dict_set k v d)).
Proof.
  intros Hnd. destruct (decide (k ∈ dict_keys d)) as [Hin|Hin].
  - by rewrite dict_keys_set_present.
  - rewrite dict_set_fresh by done. unfold dict_keys in *.
    rewrite fmap_app. apply NoDup_app. split; [done|]. split.
    + intros k' Hk' ->%list_elem_of_singleton. done.
    + apply NoDup_singleton.
Qed.

Lemma collect_downloads_NoDup fingerprint rs pk0 dl0 pk dl :
  collect_downloads fingerprint rs pk0 dl0 = Ok (pk, dl) →
  NoDup (dict_keys pk0) → NoDup (dict_keys pk).
Proof.
  revert pk0 dl0. induction rs as [|[[pkg info]|e] rs IH]; intros pk0 dl0;
    simpl; [| |done].
  - by intros [= <- <-].
  - intros Hrun Hnd. eapply IH; [exact Hrun|]. by apply dict_set_NoDup.
Qed.

Lemma results_of_jobs (jobs : list (package * option string))
    (oks : list (package * dl_info)) :
  Forall2 (λ job (r : result (package * dl_info)),
             match r with
             | Ok (pkg, info) =>
                 pkg = job.1 ∧ dl_id info = pkg_id pkg ∧
                 dl_file_name info = package_file_name pkg
             | Raise _ => True
             end) jobs (Ok <$> oks) →
  (pkg_id ∘ fst) <$> oks = (pkg_id ∘ fst) <$> jobs ∧
  dl_id <$> oks.*2 = (pkg_id ∘ fst) <$> oks ∧
  Forall (λ r, dl_id r.2 = pkg_id r.1 ∧
               dl_file_name r.2 = package_file_name r.1) oks.
Proof.
  revert jobs. induction oks as [|[pkg info] oks IH]; intros jobs Hall.
  - apply Forall2_nil_inv_r in Hall as ->. by repeat split.
  - rewrite fmap_cons in Hall.
    apply Forall2_cons_inv_r in Hall as (job & jobs' & (-> & Hid & Hfn) & Hall & ->).
    destruct (IH jobs' Hall) as (Hids & Hdl & Hok).
    rewrite !fmap_cons. simpl. split; [by rewrite Hids|].
    split; [by rewrite Hdl, Hid|]. by constructor.
Qed.

Lemma fetch_stage_Ok E task fingerprint rpms_dir debs_dir w pim pk dl w' :
  fetch_stage E task fingerprint rpms_dir debs_dir w = (Ok (pim, pk, dl), w') →
  dl_id <$> dl ≡ₚ (pkg_id ∘ fst) <$> download_jobs (task_packages_ task) ∧
  NoDup (dict_keys pk) ∧
  (∀ id p, dict_get id pk = Some p → sp_href p = None) ∧
  (NoDup (dl_id <$> dl) →
   ∀ a, a ∈ dl → ∃ p, dict_get (dl_id a) pk = Some p ∧
                      dl_file_name a = package_file_name (sp_pkg p)).
Proof.
  unfold fetch_stage. intros Hrun.
  match type of Hrun with
  | context [run_downloads E rpms_dir debs_dir ?jobs [] w] =>
      pose proof (run_downloads_results E rpms_dir debs_dir jobs [] w) as Hres;
      destruct (run_downloads E rpms_dir debs_dir jobs [] w) as [[rs pim'] w1]
  end.
  simpl in Hres.
  destruct (collect_downloads fingerprint rs [] []) as [[pk' dl']|e] eqn:Hcol;
    [|done].
  injection Hrun as <- <- <- <-.
  pose proof (collect_downloads_NoDup _ _ _ _ _ _ Hcol (NoDup_nil_2)) as Hnd.
  apply collect_downloads_Ok in Hcol as (oks & -> & -> & Hgen & _ & Hget).
  apply results_of_jobs in Hres as (Hids & Hdl & Hok).
  simpl. split; [|split; [done|split]].
  - rewrite Hdl, Hids. by rewrite schedule_Permutation.
  - intros id p Hp. destruct (Hgen id p Hp) as [?|(r & _ & _ & ->)]; done.
  - rewrite Hdl. intros Hnd' a ([pkg info] & -> & Hin)%list_elem_of_fmap.
    rewrite Forall_forall in Hok. destruct (Hok _ Hin) as [Hid Hfn].
    simpl in *. exists (make_signed_package pkg fingerprint).
    rewrite Hid. split; [|done]. by apply (Hget Hnd' (pkg, info)).
Qed.

Lemma pipeline_same_href E S task pgp_keyid key rpms_dir debs_dir w pkgs w' :
  parallel_upload S = true →
  pipeline E S task pgp_keyid key rpms_dir debs_dir w = (Ok pkgs, w') →
  NoDup ((pkg_id ∘ fst) <$> download_jobs (task_packages_ task)) →
  (∀ p q, p ∈ pkgs → q ∈ pkgs → share_name p q → sp_sha256 p = sp_sha256 q) →
  ∀ p q, p ∈ pkgs → q ∈ pkgs → sp_sha256 p = sp_sha256 q →
         sp_href p = sp_href q ∧ is_Some (sp_href p).
Proof.
  intros Hpar Hrun Hids Hnames. unfold pipeline in Hrun.
  apply bind_Ok_inv in Hrun as ([[pim pk0] dl] & w1 & Hfetch & Hrun).
  apply bind_Ok_inv in Hrun as (pvm & w2 & _ & Hrun).
  apply bind_Ok_inv in Hrun as ([] & w3 & _ & Hrun).
  apply bind_Ok_inv in Hrun as ([P pk1] & w4 & Hplan & Hrun).
  apply bind_Ok_inv in Hrun as ([] & w5 & _ & Hrun).
  apply bind_Ok_inv in Hrun as (r & w6 & Hup & Hret).
  injection Hret as <- <-.
  apply fetch_stage_Ok in Hfetch as (Hperm & Hnd0 & Hnohref0 & Hentry0).
  assert (NoDup (dl_id <$> dl)) as Hnd_dl by (by rewrite Hperm).
  specialize (Hentry0 Hnd_dl).
  pose proof (queued_first_seen _ _ _ _ _ _ _ _ _ Hplan) as Hq.
  destruct (plan_loop_packages _ _ _ _ _ _ _ _ _ _ Hplan)
    as (Hkeys1 & Hgen1 & Hnodup1).
  destruct (Hnodup1 Hnd_dl) as [_ Hsha1].
  destruct (upload_stage_same_href E S (task_id task) P pk1 w5 r w6
              (w_files w3) Hpar Hup) as [Hkeys Hsame].
  - unfold dict_keys. rewrite Hq. apply first_seen_NoDup.
  - rewrite Hq. apply first_seen_digest.
  - rewrite Hq. apply Forall_forall. intros [h a] Hin. simpl.
    apply first_seen_first_occurrence in Hin as [_ Hocc].
    pose proof (first_occurrence_elem _ _ _ _ Hocc) as Ha.
    destruct Hocc as (_ & _ & _ & Hsha & _).
    destruct (Hsha1 a Ha) as (p1 & Hp1 & Hsha_p1).
    destruct (Hgen1 _ _ Hp1) as (p0 & Hp0 & Hpkg & _).
    destruct (Hentry0 a Ha) as (p0' & Hp0' & Hfn).
    exists p1. split; [done|]. split; [congruence|]. congruence.
  - intros id p Hp. destruct (Hgen1 id p Hp) as (p0 & Hp0 & _ & ->).
    by eapply Hnohref0.
  - done.
  - assert (NoDup (dict_keys r)) as Hnd_r by congruence.
    intros p q [idp Hp]%elem_of_dict_values [idq Hq']%elem_of_dict_values.
    apply (dict_get_elem_NoDup _ _ _ Hnd_r) in Hp, Hq'.
    by eapply Hsame.
Qed.

Lemma _sign_build_trace E S task w t :
  w_trace (_sign_build E S task w).2 = w_trace w ++ t →
  t = [] ∨
  ∃ pgp_keyid key res t0,
    let task_dir := task_dir_of S task in
    let body := pipeline E S task pgp_keyid key (os_path_join task_dir ["rpms"])
                  (os_path_join task_dir ["debs"]) w in
    t = t0 ++ [EvReport (task_id task) (final_payload task body.1) res] ∧
    w_trace body.2 = w_trace w ++ t0.
Proof.
  intros Htr.
  assert (w_trace (_sign_build E S task w).2 = w_trace w → t = []) as Hnil.
  { intros Heq. rewrite Heq in Htr.
    rewrite <- (app_nil_r (w_trace w)) in Htr at 1.
    by apply app_inv_head in Htr. }
  destruct (task_pgp_key task) as [k|] eqn:Hk.
  2:{ left. apply Hnil. unfold _sign_build. by rewrite Hk. }
  destruct (decide (k = "")) as [->|Hne].
  { left. apply Hnil. unfold _sign_build. by rewrite Hk. }
  destruct (key_ids S !! k) as [key|] eqn:Hkey.
  2:{ left. apply Hnil. unfold _sign_build. rewrite Hk.
      rewrite bool_decide_eq_false_2 by done. by rewrite Hkey. }
  right. rewrite (_sign_build_unfold E S task k key w) in Htr by done.
  set (task_dir := task_dir_of S task) in *.
  set (body := pipeline E S task k key (os_path_join task_dir ["rpms"])
                 (os_path_join task_dir ["debs"]) w) in *.
  destruct (pipeline_trace E S task k key
              (os_path_join task_dir ["rpms"]) (os_path_join task_dir ["debs"])
              w body.1 body.2)
    as (t0 & Htr0 & _); [apply surjective_pairing|].
  destruct (finally_block_spec E task task_dir (final_payload task body.1) body.2)
    as (res & Htr1 & _).
  exists k, key, res, t0. simpl. split; [|done].
  rewrite Htr1, Htr0, <- app_assoc in Htr. by apply app_inv_head in Htr.
Qed.

(** C1 (as amended). With parallel upload enabled, when the task
    succeeds, the descriptors have pairwise distinct identifiers and
    descriptors that share a name have the same signed content, all the
    entries of the response payload that record the same digest carry
    the same location, including those of descriptors whose file was not
    uploaded. *)
Theorem same_digest_same_href
    (E : env) (S : signer) (task : sign_task) (w : world) (t : list event)
    (payload : response_payload) (res : option exn)
    (pkgs : list signed_package) :
  parallel_upload S = true →
  w_trace (_sign_build E S task w).2 = w_trace w ++ t →
  last t = Some (EvReport (task_id task) payload res) →
  rp_packages payload = Some pkgs →
  NoDup ((pkg_id ∘ fst) <$> download_jobs (task_packages_ task)) →
  (∀ p q, p ∈ pkgs → q ∈ pkgs → share_name p q → sp_sha256 p = sp_sha256 q) →
  ∀ p q, p ∈ pkgs → q ∈ pkgs → sp_sha256 p = sp_sha256 q →
         sp_href p = sp_href q ∧ is_Some (sp_href p).
Proof.
  intros Hpar Htr Hlast Hpkgs Hids Hnames.
  apply _sign_build_trace in Htr as [->|(k & key & res' & t0 & Ht & _)];
    [done|].
  simpl in Ht. subst t. rewrite last_snoc in Hlast. injection Hlast as <- <-.
  match type of Hpkgs with
  | context [pipeline E S task k key ?r ?d w] =>
      destruct (pipeline E S task k key r d w) as [[pkgs'|e] w'] eqn:Hrun
  end; [|done].
  simpl in Hpkgs. injection Hpkgs as ->.
  by eapply pipeline_same_href.
Qed.

(** ** Batches of every task run *)



(** * The claims at concrete inputs *)

(** C1, counterexample. With parallel upload disabled, two descriptors
    of byte-identical content end with different location fields: the
    one whose file was uploaded has the location, the other has none. *)
Lemma duplicate_without_href :
  run_without_parallel.1 = Returned ∧
  (λ p, (sp_sha256 p, sp_href p)) <$> reported_packages run_without_parallel.2 =
    [(Some "d1", Some "href:/srv/sign/7/rpms/x86_64/1/a.noarch.rpm");
     (Some "d1", None)] ∧
  ¬ (∀ p q, p ∈ reported_packages run_without_parallel.2 →
            q ∈ reported_packages run_without_parallel.2 →
            sp_sha256 p = sp_sha256 q → sp_href p = sp_href q).
Proof.
  split; [by vm_compute|]. split; [by vm_compute|].
  intros Hclaim.
  destruct (reported_packages run_without_parallel.2) as [|p [|q l]] eqn:Hl;
    [by vm_compute in Hl..|].
  assert (sp_sha256 p = sp_sha256 q ∧ sp_href p ≠ sp_href q) as [Hsha Hhref].
  { vm_compute in Hl. injection Hl as <- <- _. by split. }
  apply Hhref, Hclaim; [left|right; left|done].
Qed.

(** The location of a package that was not uploaded is the one recorded
    last under its name: with one name for two contents, the second copy
    of the first content ends with the location of the other content,
    although parallel upload is enabled and the task succeeds. *)
Lemma location_is_looked_up_by_name :
  run_one_name_two_contents.1 = Returned ∧
  (λ p, (sp_sha256 p, sp_href p)) <$>
    reported_packages run_one_name_two_contents.2 =
    [(Some "d1", Some "href:/srv/sign/7/rpms/x86_64/1/a.rpm");
     (Some "d2", Some "href:/srv/sign/7/rpms/ppc64le/2/a.rpm");
     (Some "d1", Some "href:/srv/sign/7/rpms/ppc64le/2/a.rpm")].
Proof. split; by vm_compute. Qed.

(** C2, counterexample. For a task that names no key the error leaves
    the task run, and the reporter is not invoked. *)
Lemma missing_key_error_escapes :
  run_without_key = (Escaped (SignError "No pgp keyid"), empty_world) ∧
  reports (w_trace run_without_key.2) = [].
Proof. split; by vm_compute. Qed.

(** C3, counterexample. When the reporter raises, the task run ends
    with that error and the staging directory is still there. *)
Lemma staging_directory_left_behind :
  run_failing_report.1 = Escaped (CollaboratorError "unreachable") ∧
  path_exists
    (task_dir_of (sample_signer true false)
       (sample_task (Some "ABCD1234") two_platforms))
    run_failing_report.2 = true.
Proof. split; by vm_compute. Qed.

(** C1 (as amended), at a run with parallel upload enabled: both
    descriptors of the package carry the location of the single upload. *)
Lemma same_digest_same_href_witness :
  parallel_upload (sample_signer true false) = true ∧
  ∀ p q, p ∈ reported_packages run_with_parallel.2 →
         q ∈ reported_packages run_with_parallel.2 →
         sp_sha256 p = sp_sha256 q →
         sp_href p = sp_href q ∧ is_Some (sp_href p).
Proof.
  split; [reflexivity|].
  apply (same_digest_same_href
           (sample_env same_content verify_ok None) (sample_signer true false)
           (sample_task (Some "ABCD1234") two_platforms) empty_world
           (w_trace run_with_parallel.2)
           (final_payload (sample_task (Some "ABCD1234") two_platforms)
              (Ok (reported_packages run_with_parallel.2)))
           None (reported_packages run_with_parallel.2)).
  - reflexivity.
  - reflexivity.
  - vm_compute. reflexivity.
  - reflexivity.
  - apply (bool_decide_unpack _). vm_compute. exact I.
  - assert (Forall (λ p, sp_sha256 p = Some "d1")
              (reported_packages run_with_parallel.2)) as Hall.
    { apply (bool_decide_unpack _). vm_compute. exact I. }
    intros p q Hp Hq _. rewrite Forall_forall in Hall.
    rewrite (Hall p Hp), (Hall q Hq). reflexivity.
Defined.

(** C2 (as amended), at a run whose verification stage raises. *)
Lemma stage_errors_are_reported_witness :
  task_pgp_key (sample_task (Some "ABCD1234") with_cas_hash) = Some "ABCD1234" ∧
  run_failing_verification.1 = Returned ∧
  reports (w_trace run_failing_verification.2) =
    [{| rp_build_id := Some 1%Z; rp_success := false; rp_packages := None;
        rp_error_message :=
          Some (SignError
                  "Package /srv/sign/7/rpms/aarch64/2/a.noarch.rpm cannot be verified") |}].
Proof.
  split; [reflexivity|].
  destruct (stage_errors_are_reported
              (sample_env same_content verify_second_fails None)
              (sample_signer true true)
              (sample_task (Some "ABCD1234") with_cas_hash) empty_world
              "ABCD1234"
              {| key_password := "secret"; key_fingerprint := "FP";
                 key_subkeys := ["EF567890"] |})
    as (t & res & Htr & Hrep & Hlast & _ & Hret & _).
  - reflexivity.
  - discriminate.
  - reflexivity.
  - change (w_trace run_failing_verification.2 = t) in Htr.
    split.
    + apply Hret. rewrite <- Htr in Hlast. vm_compute in Hlast.
      congruence.
    + rewrite Htr, Hrep. vm_compute. reflexivity.
Defined.

(** C3 (as amended), at a run that returns. *)
Lemma staging_directory_removed_witness :
  run_with_parallel.1 = Returned ∧
  path_exists
    (task_dir_of (sample_signer true false)
       (sample_task (Some "ABCD1234") two_platforms))
    run_with_parallel.2 = false.
Proof.
  split; [vm_compute; reflexivity|].
  apply staging_directory_removed_on_return. vm_compute. reflexivity.
Defined.

Lemma staged_plan_run_Ok :
  staged_plan_run = (Ok (staged_plan, staged_planned_packages), staged_plan_run.2).
Proof. vm_compute. reflexivity. Defined.




(** C7, at a run whose second verification returns nothing. *)
Lemma verification_failure_witness :
  Exists verification_failed (w_trace run_failing_verification.2) ∧
  Forall (λ ev, ¬ is_signing ev) (w_trace run_failing_verification.2) ∧
  reports (w_trace run_failing_verification.2) =
    [{| rp_build_id := Some 1%Z; rp_success := false; rp_packages := None;
        rp_error_message :=
          Some (SignError
                  "Package /srv/sign/7/rpms/aarch64/2/a.noarch.rpm cannot be verified") |}].
Proof.
  assert (Exists verification_failed (w_trace run_failing_verification.2))
    as Hex.
  { apply Exists_exists.
    exists (EvVerify "/srv/sign/7/rpms/aarch64/2/a.noarch.rpm" (inr None)).
    split; [|exact I].
    apply (list_elem_of_lookup_2 _ 3). vm_compute. reflexivity. }
  split; [exact Hex|].
  destruct (verification_failure_prevents_signing
              (sample_env same_content verify_second_fails None)
              (sample_signer true true)
              (sample_task (Some "ABCD1234") with_cas_hash) empty_world
              (w_trace run_failing_verification.2))
    as (_ & Hnosign & _).
  - reflexivity.
  - exact Hex.
  - split; [exact Hnosign|]. vm_compute. reflexivity.
Defined.


Lemma big_rpm_first_occurrence :
  first_occurrence (w_files staged_world) staged_downloaded
    (staged_info 3 "x86_64" "big.rpm") "d2".
Proof.
  exists [staged_info 1 "x86_64" "a.noarch.rpm";
          staged_info 2 "aarch64" "a.noarch.rpm"], [].
  split; [reflexivity|]. split; [vm_compute; reflexivity|].
  repeat constructor; vm_compute; discriminate.
Defined.

(** C9, at a file larger than the default threshold: it is queued for
    sequential upload although parallel upload is enabled. *)
Lemma parallel_upload_eligibility_witness :
  ("d2", staged_info 3 "x86_64" "big.rpm") ∈ sequential_upload_files staged_plan ∧
  ("d2", staged_info 3 "x86_64" "big.rpm") ∉ parallel_upload_files staged_plan.
Proof.
  destruct (parallel_upload_eligibility
              (sample_env same_content verify_ok None)
              (sample_signer true false) [] staged_downloaded staged_packages
              staged_planned_packages staged_world staged_plan_run.2
              staged_plan (staged_info 3 "x86_64" "big.rpm") "d2"
              (sample_file "d2" 60000000 (Some ["ef567890"]))
              staged_plan_run_Ok big_rpm_first_occurrence)
    as (Hpar & Hseq & _).
  - vm_compute. reflexivity.
  - assert (¬ (parallel_upload (sample_signer true false) = true ∧
               (f_size (sample_file "d2" 60000000 (Some ["ef567890"])) ≤
                parallel_upload_file_size (sample_signer true false))%N))
      as Hbig.
    { intros [_ Hle]. vm_compute in Hle. by apply Hle. }
    split; [by apply Hseq|]. intros Hin. by apply Hbig, Hpar.
Defined.

